(** * Collaborative delivery route optimisation: balanced, all vehicles used

    A shallow embedding of [collaborative_routing_balanced.py].

    The script is a straight-line program over a scenario (two dictionaries,
    [locations] and [vehicles_per_depot]).  It computes a rounded Euclidean
    distance matrix, derives the start and end node of every vehicle, declares
    a routing model with three dimensions and one side constraint per vehicle,
    hands the model to the routing solver, and reports the routes.

    The scenario is a parameter of the embedding ([Config]); the scenario
    written in the script is [scenario].  The routing library itself is not
    part of the script: module [ORTools] states the part of its documented
    behaviour that the script relies on (index space, dimensions, what it
    means for an assignment to satisfy the model), and the search procedure is
    left abstract. *)

From Stdlib Require Import ZArith List String Bool Arith Lia.
From Stdlib Require Import Reals Lra.
Import ListNotations.
Local Open Scope string_scope.
Local Open Scope list_scope.
Local Open Scope Z_scope.

Set Implicit Arguments.

(* ------------------------------------------------------------------------- *)
(** ** Python values used by the script *)
(* ------------------------------------------------------------------------- *)

Module Py.

(** A [dict] with string keys: insertion ordered, keys pairwise distinct.
    Assigning to a key that is present replaces the value in place,
    assigning to a new key appends it. *)
Definition dict (V : Type) := list (string * V).

Fixpoint dict_set {V} (d : dict V) (k : string) (v : V) : dict V :=
  match d with
  | [] => [(k, v)]
  | (k', v') :: rest =>
      if String.eqb k' k then (k', v) :: rest
      else (k', v') :: dict_set rest k v
  end.

(** A dictionary display [{k1: v1, k2: v2, ...}] or a comprehension
    [{k: v for ...}]: the items are inserted from left to right. *)
Definition mkdict {V} (items : list (string * V)) : dict V :=
  fold_left (fun d kv => dict_set d (fst kv) (snd kv)) items [].

(** [d[k]]; [None] stands for [KeyError]. *)
Fixpoint dict_get {V} (d : dict V) (k : string) : option V :=
  match d with
  | [] => None
  | (k', v) :: rest => if String.eqb k' k then Some v else dict_get rest k
  end.

Definition keys {V} (d : dict V) : list string := map fst d.

(** [enumerate(l)] *)
Definition enumerate {A} (l : list A) : list (nat * A) :=
  combine (seq 0 (List.length l)) l.

(** [range(n)] for a Python integer [n]: empty when [n <= 0]. *)
Definition range (n : Z) : list nat := seq 0 (Z.to_nat n).

(** [s.startswith(p)] *)
Definition startswith (s p : string) : bool := String.prefix p s.

(** The exceptions that the script can meet; [Fatal] is an abort of the
    process by the routing library (an [...OrDie] call). *)
Inductive Exn : Type :=
| KeyError (key : string)
| AttributeError (what : string)
| Fatal (what : string).

Inductive Result (A : Type) : Type :=
| Ok (a : A)
| Raise (e : Exn).
Arguments Ok {A} a.
Arguments Raise {A} e.

Definition bind {A B} (r : Result A) (k : A -> Result B) : Result B :=
  match r with
  | Ok a => k a
  | Raise e => Raise e
  end.

End Py.

Import Py.

Notation "x <- c1 ;; c2" := (Py.bind c1 (fun x => c2))
  (at level 61, c1 at next level, right associativity).

(* ------------------------------------------------------------------------- *)
(** ** Scenario *)
(* ------------------------------------------------------------------------- *)

Definition Coord : Type := (Z * Z)%type.

(** The two dictionaries of the scenario, given by the items of their
    displays. *)
Record Config : Type := {
  locations_items : list (string * Coord);
  vehicles_per_depot_items : list (string * Z)
}.

Definition scenario : Config := {|
  locations_items :=
    [ ("Depot A", (10, 50));
      ("Depot B", (60, 50));
      ("C1", (12, 45)); ("C2", (15, 55)); ("C3", (20, 48));
      ("C4", (18, 60)); ("C5", (22, 52)); ("C6", (25, 45));
      ("C7", (58, 47)); ("C8", (62, 53)); ("C9", (65, 48));
      ("C10", (68, 55)); ("C11", (55, 60)); ("C12", (70, 45)) ];
  vehicles_per_depot_items := [ ("Depot A", 2); ("Depot B", 2) ]
|}.

(* ------------------------------------------------------------------------- *)
(** ** Helpers of the script *)
(* ------------------------------------------------------------------------- *)

Section Helpers.

Variable cfg : Config.

Definition locations : dict Coord := mkdict (locations_items cfg).

Definition vehicles_per_depot : dict Z := mkdict (vehicles_per_depot_items cfg).

(** [node_names = list(locations.keys())] *)
Definition node_names : list string := keys locations.

(** [index_of = {name: i for i, name in enumerate(node_names)}] *)
Definition index_of : dict nat :=
  mkdict (map (fun p => (snd p, fst p)) (enumerate node_names)).

(** [coords = [locations[n] for n in node_names]].  The lookup cannot fail:
    [n] ranges over the keys of [locations]. *)
Definition coords : list Coord :=
  map (fun n => match dict_get locations n with
                | Some c => c
                | None => (0, 0)
                end) node_names.

(** [n = len(coords)] *)
Definition n : nat := List.length coords.

End Helpers.

(** *** Binary64 arithmetic of [euclid]

    [euclid] evaluates [int(round(s ** 0.5))] for the integer
    [s = (a[0] - b[0])**2 + (a[1] - b[1])**2].  The sum of squares is exact
    integer arithmetic.  [s ** 0.5] converts [s] to a binary64 float and
    raises it to the power one half, [round] takes the float to the nearest
    integer, ties to the even one, and [int] is exact on the result.

    Every float that occurs is non-negative.  The converted argument is an
    integer and is written as such; the power is written as an integer
    significand [N] and a scale [t] and stands for [N / 2^t]. *)

(** [float(x)] for a positive integer [x]: [x] itself when it has at most 53
    bits, else its leading 53 bits rounded to nearest, ties to even, followed
    by zeros.

    Python raises [OverflowError] when the result would be [2^1024] or more.
    The embedding has no largest exponent and goes on with the same
    arithmetic; the statements on the value of a distance are made for
    squared distances far below that range. *)
Definition float_of_int (x : Z) : Z :=
  let e := Z.log2 x - 52 in
  if e <=? 0 then x
  else
    let q := x / 2 ^ e in
    let r := x mod 2 ^ e in
    let half := 2 ^ (e - 1) in
    (if (half <? r) || ((r =? half) && Z.odd q) then q + 1 else q) * 2 ^ e.

(** The scale of [x ** 0.5]: with [h] half the binary exponent of [x], the
    root lies in [[2^h, 2^(h+1))] and its 53 bit significand counts units of
    [2^(h - 52)]. *)
Definition pow_half_scale (x : Z) : Z := 52 - Z.log2 x / 2.

(** The root of [x] in units of [2^(- t)], rounded down: the largest float
    that is at most the exact root. *)
Definition pow_half_floor (x : Z) : Z :=
  let t := pow_half_scale x in
  if 0 <=? t then Z.sqrt (x * 4 ^ t) else Z.sqrt (x / 4 ^ (- t)).

(** [x ** 0.5] for a float [x >= 1] with an integer value: the significand of
    the float nearest to the exact root, which is [pow_half_floor x] or its
    successor according to the side of their midpoint on which the root lies
    (the root of a float never is such a midpoint).

    The C library computes the power with [pow], which is accurate to less
    than one unit in the last place but is not bound to return the nearest
    float: on some arguments it returns the other of the two floats that
    enclose the root.  Lemma [py_round_neighbours] shows that below [2^49]
    the distance does not depend on which of the two is returned. *)
Definition float_pow_half (x : Z) : Z :=
  let t := pow_half_scale x in
  let q := pow_half_floor x in
  if 0 <=? t
  then (if q <? x * 4 ^ t - q * q then q + 1 else q)
  else (if (2 * q + 1) ^ 2 * 4 ^ (- t) <=? 4 * x then q + 1 else q).

(** [int(round(f))] for the float [f = N / 2^t]: the nearest integer, the
    even one of the two when [f] is half way. *)
Definition py_round (N t : Z) : Z :=
  if t <=? 0 then N * 2 ^ (- t)
  else
    let fl := N / 2 ^ t in
    let fr := N mod 2 ^ t in
    let half := 2 ^ (t - 1) in
    if (half <? fr) || ((fr =? half) && Z.odd fl) then fl + 1 else fl.

(** [int(round(s ** 0.5))] for a non-negative integer [s]; [0 ** 0.5] is
    [0.0]. *)
Definition round_sqrt (s : Z) : Z :=
  if s <=? 0 then 0
  else
    let x := float_of_int s in
    py_round (float_pow_half x) (pow_half_scale x).

(** [def euclid(a, b)] *)
Definition euclid (a b : Coord) : Z :=
  round_sqrt ((fst a - fst b) ^ 2 + (snd a - snd b) ^ 2).

Section DistanceMatrix.

Variable cfg : Config.

(** [coords[i]] *)
Definition coord_at (i : nat) : Coord := nth i (coords cfg) (0, 0).

(** [distance_matrix =
      [[euclid(coords[i], coords[j]) for j in range(n)] for i in range(n)]] *)
Definition distance_matrix : list (list Z) :=
  map (fun i => map (fun j => euclid (coord_at i) (coord_at j))
                    (seq 0 (n cfg)))
      (seq 0 (n cfg)).

(** [distance_matrix[i][j]]; [None] stands for [IndexError]. *)
Definition matrix_entry (i j : nat) : option Z :=
  match nth_error distance_matrix i with
  | Some row => nth_error row j
  | None => None
  end.

End DistanceMatrix.

(* ------------------------------------------------------------------------- *)
(** ** Starts and ends per vehicle *)
(* ------------------------------------------------------------------------- *)

Section StartsEnds.

Variable cfg : Config.

(** [for _ in range(cnt): starts.append(depot_idx); ends.append(depot_idx)] *)
Definition append_vehicles (depot_idx : nat) (cnt : Z)
           (starts ends : list nat) : list nat * list nat :=
  fold_left (fun se _ => (fst se ++ [depot_idx], snd se ++ [depot_idx]))
            (range cnt) (starts, ends).

(** [for depot_name, cnt in vehicles_per_depot.items(): ...]: the lookup
    [index_of[depot_name]] raises [KeyError] for a depot without a
    location. *)
Fixpoint starts_ends_loop (items : list (string * Z))
         (starts ends : list nat) : Result (list nat * list nat) :=
  match items with
  | [] => Ok (starts, ends)
  | (depot_name, cnt) :: rest =>
      match dict_get (index_of cfg) depot_name with
      | None => Raise (KeyError depot_name)
      | Some depot_idx =>
          let se := append_vehicles depot_idx cnt starts ends in
          starts_ends_loop rest (fst se) (snd se)
      end
  end.

(** [starts, ends = [], []] followed by the loop. *)
Definition starts_ends : Result (list nat * list nat) :=
  starts_ends_loop (vehicles_per_depot cfg) [] [].

End StartsEnds.

(* ------------------------------------------------------------------------- *)
(** ** The routing library *)
(* ------------------------------------------------------------------------- *)

(** The part of the routing library ([pywrapcp]) that the script calls.  The
    library is not part of the script; the definitions follow its documented
    behaviour.  Declarations are state passing over [RoutingModel]; the
    meaning of a model is the set of assignments that satisfy it
    ([feasible]).  The search ([SolveWithParameters]) is not modelled: the
    script and the theorems take it as a function from models to optional
    assignments. *)
Module ORTools.

Definition mem (x : nat) (l : list nat) : bool := existsb (Nat.eqb x) l.

Fixpoint nodupb (l : list nat) : bool :=
  match l with
  | [] => true
  | x :: t => negb (mem x t) && nodupb t
  end.

(** *** Index manager

    Nodes are the locations [0 .. num_nodes - 1].  The model works on
    indices: every node that is not only an end keeps one index, every
    vehicle that starts at a node already used as a start gets a fresh start
    index, and every vehicle gets a fresh end index.  Indices below [size]
    have a successor; the end indices are [size .. size + num_vehicles - 1]. *)
Record IndexManager : Type := {
  num_nodes : nat;
  num_vehicles : nat;
  size : nat;
  index_to_node : list nat;
  vehicle_to_start : list nat;
  vehicle_to_end : list nat
}.

Definition regular_nodes (nodes : nat) (starts ends : list nat) : list nat :=
  filter (fun i => mem i starts || negb (mem i ends)) (seq 0 nodes).

Fixpoint position (x : nat) (l : list nat) : option nat :=
  match l with
  | [] => None
  | y :: t => if Nat.eqb y x then Some 0%nat else option_map S (position x t)
  end.

Definition node_to_index (regular : list nat) (node : nat) : nat :=
  match position node regular with
  | Some i => i
  | None => 0%nat
  end.

(** Second pass: the first vehicle starting at a node uses the node's own
    index, the later ones a fresh index appended to [index_to_node]. *)
Fixpoint place_starts (regular : list nat) (starts seen : list nat)
         (itn vts : list nat) : list nat * list nat :=
  match starts with
  | [] => (itn, vts)
  | start :: rest =>
      if mem start seen
      then place_starts regular rest seen
                        (itn ++ [start]) (vts ++ [List.length itn])
      else place_starts regular rest (start :: seen)
                        itn (vts ++ [node_to_index regular start])
  end.

(** [pywrapcp.RoutingIndexManager(num_nodes, num_vehicles, starts, ends)] *)
Definition RoutingIndexManager (nodes vehicles : nat)
           (starts ends : list nat) : IndexManager :=
  let regular := regular_nodes nodes starts ends in
  let placed := place_starts regular starts [] regular [] in
  let itn := fst placed in
  {| num_nodes := nodes;
     num_vehicles := vehicles;
     size := List.length itn;
     index_to_node := itn ++ ends;
     vehicle_to_start := snd placed;
     vehicle_to_end := seq (List.length itn) vehicles |}.

(** [manager.IndexToNode(index)] *)
Definition IndexToNode (mg : IndexManager) (index : nat) : nat :=
  nth index (index_to_node mg) 0%nat.

(** *** Routing model *)

Definition TransitCallback : Type := nat -> nat -> Z.

(** A dimension: the registered evaluator that gives its transit, the
    largest slack, the capacity (upper bound of the cumulative value) per
    vehicle, and whether the cumulative value is fixed to zero at the start
    of every route. *)
Record Dimension : Type := {
  dim_name : string;
  dim_evaluator : nat;
  dim_slack_max : Z;
  dim_capacities : list Z;
  dim_fix_start_cumul_to_zero : bool
}.

(** The decision variables the script refers to. *)
Inductive IntVar : Type :=
| NextVarOf (index : nat)
| CumulVarOf (dimension : string) (index : nat).

(** The constraint expressions the script builds: [x >= c]. *)
Inductive Constraint : Type :=
| GreaterOrEqual (x : IntVar) (c : Z).

Record RoutingModel : Type := {
  manager : IndexManager;
  transit_evaluators : list TransitCallback;
  arc_cost_evaluator : option nat;
  dimensions : list Dimension;
  solver_constraints : list Constraint
}.

(** [pywrapcp.RoutingModel(manager)] *)
Definition NewRoutingModel (mg : IndexManager) : RoutingModel :=
  {| manager := mg;
     transit_evaluators := [];
     arc_cost_evaluator := None;
     dimensions := [];
     solver_constraints := [] |}.

(** [routing.RegisterTransitCallback(cb)]: the callback's handle. *)
Definition RegisterTransitCallback (cb : TransitCallback)
           (m : RoutingModel) : RoutingModel * nat :=
  ({| manager := manager m;
      transit_evaluators := transit_evaluators m ++ [cb];
      arc_cost_evaluator := arc_cost_evaluator m;
      dimensions := dimensions m;
      solver_constraints := solver_constraints m |},
   List.length (transit_evaluators m)).

(** [routing.RegisterUnaryTransitCallback(cb)]: the transit of an arc is
    the callback's value at the arc's origin. *)
Definition RegisterUnaryTransitCallback (cb : nat -> Z)
           (m : RoutingModel) : RoutingModel * nat :=
  RegisterTransitCallback (fun from_index _ => cb from_index) m.

(** [routing.SetArcCostEvaluatorOfAllVehicles(evaluator_index)] *)
Definition SetArcCostEvaluatorOfAllVehicles (evaluator_index : nat)
           (m : RoutingModel) : RoutingModel :=
  {| manager := manager m;
     transit_evaluators := transit_evaluators m;
     arc_cost_evaluator := Some evaluator_index;
     dimensions := dimensions m;
     solver_constraints := solver_constraints m |}.

Definition has_dimension (m : RoutingModel) (name : string) : bool :=
  existsb (fun d => String.eqb (dim_name d) name) (dimensions m).

(** [routing.AddDimensionWithVehicleCapacity(evaluator_index, slack_max,
    vehicle_capacities, fix_start_cumul_to_zero, name)]; a name already in
    use leaves the model as it is. *)
Definition AddDimensionWithVehicleCapacity (evaluator_index : nat)
           (slack_max : Z) (vehicle_capacities : list Z)
           (fix_start_cumul_to_zero : bool) (name : string)
           (m : RoutingModel) : RoutingModel :=
  if has_dimension m name then m
  else
    {| manager := manager m;
       transit_evaluators := transit_evaluators m;
       arc_cost_evaluator := arc_cost_evaluator m;
       dimensions :=
         dimensions m ++
         [ {| dim_name := name;
              dim_evaluator := evaluator_index;
              dim_slack_max := slack_max;
              dim_capacities := vehicle_capacities;
              dim_fix_start_cumul_to_zero := fix_start_cumul_to_zero |} ];
       solver_constraints := solver_constraints m |}.

(** [routing.AddDimension(evaluator_index, slack_max, capacity,
    fix_start_cumul_to_zero, name)]: the same capacity for every vehicle. *)
Definition AddDimension (evaluator_index : nat) (slack_max capacity : Z)
           (fix_start_cumul_to_zero : bool) (name : string)
           (m : RoutingModel) : RoutingModel :=
  AddDimensionWithVehicleCapacity
    evaluator_index slack_max
    (repeat capacity (num_vehicles (manager m)))
    fix_start_cumul_to_zero name m.

(** [routing.GetDimensionOrDie(name)] *)
Definition GetDimensionOrDie (m : RoutingModel) (name : string)
  : option Dimension :=
  find (fun d => String.eqb (dim_name d) name) (dimensions m).

(** [dimension.CumulVar(index)] *)
Definition CumulVar (d : Dimension) (index : nat) : IntVar :=
  CumulVarOf (dim_name d) index.

(** [routing.NextVar(index)] *)
Definition NextVar (index : nat) : IntVar := NextVarOf index.

(** [solver.Add(constraint)] *)
Definition SolverAdd (c : Constraint) (m : RoutingModel) : RoutingModel :=
  {| manager := manager m;
     transit_evaluators := transit_evaluators m;
     arc_cost_evaluator := arc_cost_evaluator m;
     dimensions := dimensions m;
     solver_constraints := solver_constraints m ++ [c] |}.

Definition Size (m : RoutingModel) : nat := size (manager m).

Definition vehicles (m : RoutingModel) : nat := num_vehicles (manager m).

(** [routing.Start(v)], [routing.End(v)], [routing.IsEnd(index)] *)
Definition Start (m : RoutingModel) (v : nat) : nat :=
  nth v (vehicle_to_start (manager m)) 0%nat.

Definition End (m : RoutingModel) (v : nat) : nat :=
  nth v (vehicle_to_end (manager m)) 0%nat.

Definition IsEnd (m : RoutingModel) (index : nat) : bool :=
  (Size m <=? index)%nat.

Definition evaluator (m : RoutingModel) (evaluator_index : nat)
  : TransitCallback :=
  nth evaluator_index (transit_evaluators m) (fun _ _ => 0).

(** [routing.GetArcCostForVehicle(from_index, to_index, vehicle)]: the
    value of the arc cost evaluator set for the vehicle (every vehicle has
    the same one here; no fixed cost is declared). *)
Definition GetArcCostForVehicle (m : RoutingModel)
           (from_index to_index vehicle : nat) : Z :=
  match arc_cost_evaluator m with
  | Some e => evaluator m e from_index to_index
  | None => 0
  end.

(** *** Assignments and what it means to satisfy a model *)

(** A value for every variable; [solution.Value(x)] is [a x]. *)
Definition Assignment : Type := IntVar -> Z.

(** Consecutive pairs of a sequence of stops. *)
Fixpoint arcs (l : list nat) : list (nat * nat) :=
  match l with
  | [] => []
  | i :: t => match t with
              | [] => []
              | j :: _ => (i, j) :: arcs t
              end
  end.

Section Semantics.

Variable m : RoutingModel.
Variable a : Assignment.

Definition next (index : nat) : nat := Z.to_nat (a (NextVar index)).

(** The indices met from [index] following the successors, the end index
    included. *)
Fixpoint walk (fuel : nat) (index : nat) : option (list nat) :=
  if IsEnd m index then Some [index]
  else match fuel with
       | O => None
       | S fuel' => option_map (cons index) (walk fuel' (next index))
       end.

(** The route of vehicle [v].  A route without a repeated index leaves
    the non-end indices after at most [Size m] steps. *)
Definition route (v : nat) : option (list nat) := walk (Size m) (Start m v).

(** Every vehicle's path leads from its start to its own end. *)
Definition route_okb (v : nat) : bool :=
  match route v with
  | Some r => Nat.eqb (last r 0%nat) (End m v)
  | None => false
  end.

(** The non-end indices on the routes, vehicle after vehicle. *)
Definition visited : list nat :=
  flat_map (fun v => match route v with
                     | Some r => removelast r
                     | None => []
                     end) (seq 0 (vehicles m)).

(** No index is on two routes or twice on a route, and every index with
    a successor is on a route (no node is optional). *)
Definition paths_okb : bool :=
  forallb route_okb (seq 0 (vehicles m)) &&
  nodupb visited &&
  Nat.eqb (List.length visited) (Size m).

Definition cumul (d : Dimension) (index : nat) : Z :=
  a (CumulVar d index).

(** Along an arc the cumulative value grows by the transit plus a slack
    between zero and the dimension's largest slack. *)
Definition arc_okb (d : Dimension) (arc : nat * nat) : bool :=
  let t := evaluator m (dim_evaluator d) (fst arc) (snd arc) in
  (cumul d (fst arc) + t <=? cumul d (snd arc)) &&
  (cumul d (snd arc) <=? cumul d (fst arc) + t + dim_slack_max d).

Definition bound_okb (d : Dimension) (v : nat) (index : nat) : bool :=
  (0 <=? cumul d index) && (cumul d index <=? nth v (dim_capacities d) 0).

Definition dimension_okb (d : Dimension) (v : nat) : bool :=
  match route v with
  | Some r =>
      (if dim_fix_start_cumul_to_zero d
       then cumul d (Start m v) =? 0 else true) &&
      forallb (arc_okb d) (arcs r) &&
      forallb (bound_okb d v) r
  | None => false
  end.

Definition holdsb (c : Constraint) : bool :=
  match c with
  | GreaterOrEqual x k => k <=? a x
  end.

Definition feasibleb : bool :=
  paths_okb &&
  forallb (fun d => forallb (dimension_okb d) (seq 0 (vehicles m)))
          (dimensions m) &&
  forallb holdsb (solver_constraints m).

Definition feasible : Prop := feasibleb = true.

End Semantics.

(** What the script expects of [routing.SolveWithParameters(search)]: an
    assignment it returns satisfies the model. *)
Definition sound (solve : RoutingModel -> option Assignment) : Prop :=
  forall m a, solve m = Some a -> feasible m a.

End ORTools.

Import ORTools.

(* ------------------------------------------------------------------------- *)
(** ** The model declared by the script *)
(* ------------------------------------------------------------------------- *)

Section Model.

Variable cfg : Config.

(** [def dist_cb(from_index, to_index)], with the globals it reads
    ([distance_matrix], [manager]) as arguments.  The library calls it on
    indices of the model only; an entry outside the matrix reads as 0
    here. *)
Definition dist_cb (distance_matrix : list (list Z)) (manager : IndexManager)
           (from_index to_index : nat) : Z :=
  let i := IndexToNode manager from_index in
  let j := IndexToNode manager to_index in
  nth j (nth i distance_matrix []) 0.

(** [def demand_cb(index)], with the globals it reads ([node_names],
    [manager]) as arguments. *)
Definition demand_cb (node_names : list string) (manager : IndexManager)
           (index : nat) : Z :=
  let node := IndexToNode manager index in
  if startswith (nth node node_names "") "Depot" then 0 else 1.

(** [def one_per_arc_cb(from_index, to_index)] *)
Definition one_per_arc_cb (from_index to_index : nat) : Z := 1.

(** The declarations from [manager = ...] down to
    [routing.AddDimension(arc_idx, 0, 1000, True, "ArcCount")]. *)
Definition declare_model (starts ends : list nat) : RoutingModel :=
  let node_names := node_names cfg in
  let distance_matrix := distance_matrix cfg in
  let num_vehicles := List.length starts in
  let manager := RoutingIndexManager (n cfg) num_vehicles starts ends in
  let routing := NewRoutingModel manager in
  let '(routing, transit_idx) :=
    RegisterTransitCallback (dist_cb distance_matrix manager) routing in
  let routing := SetArcCostEvaluatorOfAllVehicles transit_idx routing in
  let '(routing, demand_idx) :=
    RegisterUnaryTransitCallback (demand_cb node_names manager) routing in
  let vehicle_capacities := repeat 4 num_vehicles in
  let routing :=
    AddDimensionWithVehicleCapacity
      demand_idx 0 vehicle_capacities true "Capacity" routing in
  let routing := AddDimension transit_idx 0 120 true "Distance" routing in
  let '(routing, arc_idx) :=
    RegisterTransitCallback one_per_arc_cb routing in
  AddDimension arc_idx 0 1000 true "ArcCount" routing.

(** [arc_dim = routing.GetDimensionOrDie("ArcCount")] and the loop
    [for v in range(num_vehicles): solver.Add(end_cumul >= 2)]. *)
Definition add_min_visit (num_vehicles : nat) (routing : RoutingModel)
  : Result RoutingModel :=
  match GetDimensionOrDie routing "ArcCount" with
  | None => Raise (Fatal "GetDimensionOrDie")
  | Some arc_dim =>
      Ok (fold_left
            (fun r v =>
               let end_cumul := CumulVar arc_dim (End r v) in
               SolverAdd (GreaterOrEqual end_cumul 2) r)
            (seq 0 num_vehicles) routing)
  end.

(** Everything before the search. *)
Definition build_model : Result RoutingModel :=
  se <- starts_ends cfg ;;
  add_min_visit (List.length (fst se)) (declare_model (fst se) (snd se)).

End Model.

(* ------------------------------------------------------------------------- *)
(** ** Reporting and plotting *)
(* ------------------------------------------------------------------------- *)

(** What [print] writes, line by line; formatted values are kept as values. *)
Inductive OutLine : Type :=
| TextLine (s : string)
| NodeLine (i : nat) (nname : string) (xy : Coord)
| TruckLine (v : nat) (route_distance : Z) (route_nodes : list string)
| TotalLine (total_distance : Z).

(** The calls into [matplotlib.pyplot], in order.  [plt_text xi yi lab] is
    the call [plt.text(xi+0.3, yi+0.3, lab, fontsize=9)]. *)
Inductive PlotCall : Type :=
| plt_figure
| plt_plot (xs ys : list Z) (truck : nat) (color : string)
| plt_text (xi yi : Z) (lab : string)
| plt_title (s : string)
| plt_xlabel (s : string)
| plt_ylabel (s : string)
| plt_legend
| plt_grid
| plt_tight_layout
| plt_show.

(** How a run of the script ends: with a traceback, normally (with what was
    printed and what was plotted), or not at all (a walk that never reaches
    an end index, seen here as the fuel running out). *)
Inductive Outcome : Type :=
| Uncaught (e : Exn)
| Completed (stdout : list OutLine) (plot : list PlotCall)
| Diverged.

Section Report.

Variable cfg : Config.
Variable routing : RoutingModel.

Definition name_at (index : nat) : string :=
  nth (IndexToNode (manager routing) index) (node_names cfg) "".

Section PrintSolution.

(** The value of the global [solution] in the branch that calls
    [print_solution]. *)
Variable solution : Assignment.

(** The [while not routing.IsEnd(index)] loop of [print_solution]. *)
Fixpoint route_loop (fuel : nat) (v : nat) (index : nat)
         (route_nodes : list string) (route_distance : Z)
  : option (nat * list string * Z) :=
  if IsEnd routing index then Some (index, route_nodes, route_distance)
  else match fuel with
       | O => None
       | S fuel' =>
           let route_nodes := route_nodes ++ [name_at index] in
           let prev := index in
           let index := Z.to_nat (solution (NextVar index)) in
           let route_distance :=
             route_distance + GetArcCostForVehicle routing prev index v in
           route_loop fuel' v index route_nodes route_distance
       end.

(** The body of [for v in range(num_vehicles)] for one vehicle: the new
    total and the printed line. *)
Definition print_route (fuel : nat) (v : nat) (total_distance : Z)
  : option (Z * OutLine) :=
  match route_loop fuel v (Start routing v) [] 0 with
  | None => None
  | Some (index, route_nodes, route_distance) =>
      let route_nodes := route_nodes ++ [name_at index] in
      Some (total_distance + route_distance,
            TruckLine v route_distance route_nodes)
  end.

Fixpoint print_routes (fuel : nat) (vs : list nat) (total_distance : Z)
  : option (Z * list OutLine) :=
  match vs with
  | [] => Some (total_distance, [])
  | v :: rest =>
      match print_route fuel v total_distance with
      | None => None
      | Some (total_distance, line) =>
          match print_routes fuel rest total_distance with
          | None => None
          | Some (total, lines) => Some (total, line :: lines)
          end
      end
  end.

(** [def print_solution()] *)
Definition print_solution (fuel : nat) : option (list OutLine) :=
  match print_routes fuel (seq 0 (vehicles routing)) 0 with
  | None => None
  | Some (total_distance, lines) =>
      Some (lines ++ [TextLine ""; TotalLine total_distance])
  end.

End PrintSolution.

(** The [if not solution: ... else: ...] statement. *)
Definition report (fuel : nat) (solution : option Assignment)
  : option (list OutLine) :=
  match solution with
  | None =>
      Some [TextLine
              "No solution found. Try increasing Distance cap or time limit."]
  | Some a =>
      match print_solution a fuel with
      | None => None
      | Some lines =>
          Some ([TextLine "Balanced solution found!"; TextLine "";
                 TextLine "Nodes (index -> name)        Coordinates"]
                ++ map (fun p =>
                          NodeLine (fst p) (snd p)
                                   (match dict_get (locations cfg) (snd p) with
                                    | Some c => c
                                    | None => (0, 0)
                                    end))
                       (enumerate (node_names cfg))
                ++ [TextLine ""; TextLine "--- Routes ---"]
                ++ lines)
      end
  end.

Section Plot.

(** The global [solution]: [None] when the search found nothing. *)
Variable solution : option Assignment.

Definition colors : list string :=
  ["tab:blue"; "tab:orange"; "tab:green"; "tab:red"; "tab:purple";
   "tab:brown"].

(** [xs.append(x); ys.append(y); labels.append(name)] after
    [x, y = locations[name]] *)
Definition plot_stop (index : nat) (acc : list Z * list Z * list string)
  : Result (list Z * list Z * list string) :=
  let name := name_at index in
  match dict_get (locations cfg) name with
  | None => Raise (KeyError name)
  | Some (x, y) =>
      let '(xs, ys, labels) := acc in
      Ok (xs ++ [x], ys ++ [y], labels ++ [name])
  end.

(** The [while not routing.IsEnd(index)] loop of the plotting block;
    [solution.Value] raises [AttributeError] when [solution] is [None]. *)
Fixpoint plot_loop (fuel : nat) (index : nat)
         (acc : list Z * list Z * list string)
  : option (Result (nat * (list Z * list Z * list string))) :=
  if IsEnd routing index then Some (Ok (index, acc))
  else match plot_stop index acc with
       | Raise e => Some (Raise e)
       | Ok acc =>
           match solution with
           | None =>
               Some (Raise (AttributeError
                 "'NoneType' object has no attribute 'Value'"))
           | Some a =>
               match fuel with
               | O => None
               | S fuel' =>
                   plot_loop fuel' (Z.to_nat (a (NextVar index))) acc
               end
           end
       end.

(** The body of [for v in range(num_vehicles)] in the plotting block. *)
Definition plot_vehicle (fuel : nat) (v : nat)
  : option (Result (list PlotCall)) :=
  match plot_loop fuel (Start routing v) ([], [], []) with
  | None => None
  | Some (Raise e) => Some (Raise e)
  | Some (Ok (index, acc)) =>
      match plot_stop index acc with
      | Raise e => Some (Raise e)
      | Ok (xs, ys, labels) =>
          Some (Ok (plt_plot xs ys v
                      (nth (v mod List.length colors) colors "")
                    :: map (fun p => plt_text (fst (fst p)) (snd (fst p))
                                              (snd p))
                           (combine (combine xs ys) labels)))
      end
  end.

(** The calls made by the loop over the vehicles, and whether the loop
    ran to its end ([true]) or was left by an exception ([false]). *)
Fixpoint plot_vehicles (fuel : nat) (vs : list nat)
  : option (list PlotCall * bool) :=
  match vs with
  | [] => Some ([], true)
  | v :: rest =>
      match plot_vehicle fuel v with
      | None => None
      | Some (Raise _) => Some ([], false)
      | Some (Ok calls) =>
          match plot_vehicles fuel rest with
          | None => None
          | Some (calls', finished) => Some (calls ++ calls', finished)
          end
      end
  end.

(** The [try: ... except Exception: pass] block.  [matplotlib] tells
    whether the import succeeds.  Any exception ends the block silently;
    the calls made before it stand. *)
Definition plot_block (fuel : nat) (matplotlib : bool)
  : option (list PlotCall) :=
  if matplotlib then
    match plot_vehicles fuel (seq 0 (vehicles routing)) with
    | None => None
    | Some (calls, true) =>
        Some (plt_figure :: calls ++
              [plt_title "Balanced Collaborative Multi-Depot Routing";
               plt_xlabel "X"; plt_ylabel "Y"; plt_legend; plt_grid;
               plt_tight_layout; plt_show])
    | Some (calls, false) => Some (plt_figure :: calls)
    end
  else Some [].

End Plot.

End Report.

(* ------------------------------------------------------------------------- *)
(** ** The script as a whole *)
(* ------------------------------------------------------------------------- *)

(** A run of the script on a scenario.  [SolveWithParameters] is the search
    of the routing library, [matplotlib] tells whether plotting is
    installed, [fuel] bounds the steps of every walk. *)
Definition program (cfg : Config) (fuel : nat) (matplotlib : bool)
           (SolveWithParameters : RoutingModel -> option Assignment)
  : Outcome :=
  match build_model cfg with
  | Raise e => Uncaught e
  | Ok routing =>
      let solution := SolveWithParameters routing in
      match report cfg routing fuel solution with
      | None => Diverged
      | Some stdout =>
          match plot_block cfg routing solution fuel matplotlib with
          | None => Diverged
          | Some plot => Completed stdout plot
          end
      end
  end.

(* ------------------------------------------------------------------------- *)
(** ** Assignments read off explicit routes *)
(* ------------------------------------------------------------------------- *)

(** The assignment that follows the given routes (sequences of indices, from
    a start index to an end index): the successor of an index is the next
    stop of its route, the cumulative value of a dimension at a stop is the
    sum of the dimension's transits up to it.  It serves to exhibit concrete
    solutions and as the candidate of [checked_solver]. *)
Section RoutesAssignment.

Variable m : RoutingModel.
Variable routes : list (list nat).

(** The cumulative values of a transit along a route, stop by stop. *)
Fixpoint cumul_table (t : TransitCallback) (r : list nat) (acc : Z)
  : list (nat * Z) :=
  match r with
  | [] => []
  | i :: rest =>
      (i, acc) :: match rest with
                  | [] => []
                  | j :: _ => cumul_table t rest (acc + t i j)
                  end
  end.

Definition lookup_nat {A} (table : list (nat * A)) (index : nat) : option A :=
  option_map snd (find (fun p => Nat.eqb (fst p) index) table).

Definition routes_assignment : Assignment :=
  let nexts := flat_map arcs routes in
  let cumuls :=
    map (fun d =>
           (dim_name d,
            flat_map (fun r => cumul_table (evaluator m (dim_evaluator d)) r 0)
                     routes))
        (dimensions m) in
  fun x =>
    match x with
    | NextVarOf index =>
        match lookup_nat nexts index with
        | Some j => Z.of_nat j
        | None => Z.of_nat index
        end
    | CumulVarOf name index =>
        match find (fun p => String.eqb (fst p) name) cumuls with
        | None => 0
        | Some p =>
            match lookup_nat (snd p) index with
            | Some c => c
            | None => 0
            end
        end
    end.

End RoutesAssignment.

(** A search that proposes one candidate and returns it when the model
    accepts it. *)
Definition checked_solver (routes : list (list nat)) (m : RoutingModel)
  : option Assignment :=
  let a := routes_assignment m routes in
  if feasibleb m a then Some a else None.

(** A balanced solution of the scenario of the script: three customers per
    truck.  Indices 0 to 13 are the locations in the order of the script,
    14 and 15 the start indices of the second truck of each depot, 16 to 19
    the end indices. *)
Definition balanced_routes : list (list nat) :=
  [ [0; 2; 4; 7; 16]; [14; 3; 5; 6; 17];
    [1; 8; 10; 13; 18]; [15; 9; 11; 12; 19] ]%nat.

(* ------------------------------------------------------------------------- *)
(** ** Vocabulary of the statements *)
(* ------------------------------------------------------------------------- *)

(** The squared Euclidean distance of two coordinates. *)
Definition sq_dist (a b : Coord) : Z :=
  (fst a - fst b) ^ 2 + (snd a - snd b) ^ 2.


(** The integer nearest to the exact square root of [s], in integer
    arithmetic: with [k] the integer square root, it is [k] when [s] is at
    most [k^2 + k], that is below [(k + 1/2)^2], and [k + 1] otherwise. *)
Definition exact_round_sqrt (s : Z) : Z :=
  let k := Z.sqrt s in
  if s - k * k <=? k then k else k + 1.


(** The sum of a cost over the consecutive pairs of a sequence of stops. *)
Definition path_cost (cost : nat -> nat -> Z) (r : list nat) : Z :=
  fold_right (fun arc acc => cost (fst arc) (snd arc) + acc) 0 (arcs r).

(** The stops of a route between its start and its end. *)
Definition intermediate_stops (r : list nat) : list nat := tl (removelast r).

(** The start nodes of the vehicles of a scenario (empty when the loop that
    computes them raises). *)
Definition starts_of (cfg : Config) : list nat :=
  match starts_ends cfg with
  | Ok se => fst se
  | Raise _ => []
  end.

(** The two readings of "customer".  By role: a node at which no vehicle is
    based, which is what the routing model lets a route visit.  By name: a
    node whose name does not start with "Depot", which is what [demand_cb]
    counts. *)
Definition is_base (cfg : Config) (node : nat) : bool :=
  mem node (starts_of cfg).

Definition named_depot (cfg : Config) (node : nat) : bool :=
  startswith (nth node (node_names cfg) "") "Depot".

Definition customers_by_role (cfg : Config) : list nat :=
  filter (fun node => negb (is_base cfg node)) (seq 0 (n cfg)).

Definition customers_by_name (cfg : Config) : list nat :=
  filter (fun node => negb (named_depot cfg node)) (seq 0 (n cfg)).

(** The names agree with the roles: every location named as a depot is the
    base of at least one vehicle. *)
Definition depots_have_vehicles (cfg : Config) : bool :=
  forallb (fun name =>
             implb (startswith name "Depot")
                   (match dict_get (vehicles_per_depot cfg) name with
                    | Some cnt => 0 <? cnt
                    | None => false
                    end))
          (node_names cfg).






(** A scenario with a depot that has no coordinate. *)
Definition missing_depot_scenario : Config := {|
  locations_items := [ ("Depot A", (10, 50)); ("C1", (12, 45)) ];
  vehicles_per_depot_items := [ ("Depot A", 1); ("Depot Z", 1) ]
|}.

(** The distance of a route as [print_solution] adds it up: the arc costs of
    the consecutive stops. *)
Definition route_distance (m : RoutingModel) (v : nat) (r : list nat) : Z :=
  path_cost (fun i j => GetArcCostForVehicle m i j v) r.

(** The stops of a route that [demand_cb] counts: every stop but the end
    whose name does not start with "Depot". *)
Definition counted_stops (cfg : Config) (m : RoutingModel) (r : list nat)
  : list nat :=
  filter (fun i => negb (named_depot cfg (IndexToNode (manager m) i)))
         (removelast r).

(** The stops of the route of a vehicle, its end index left out. *)
Definition body_of (m : RoutingModel) (a : Assignment) (v : nat) : list nat :=
  match route m a v with
  | Some r => removelast r
  | None => []
  end.

(** The walks of the given vehicles, when each of them reaches an end index
    within [fuel] steps. *)
Definition walks_of (m : RoutingModel) (a : Assignment) (fuel : nat)
           (vs : list nat) : option (list (list nat)) :=
  fold_right (fun v acc =>
                match walk m a fuel (Start m v), acc with
                | Some r, Some rs => Some (r :: rs)
                | _, _ => None
                end)
             (Some []) vs.

Definition walks (m : RoutingModel) (a : Assignment) (fuel : nat)
  : option (list (list nat)) :=
  walks_of m a fuel (seq 0 (vehicles m)).

(** The lines that report given walks: one line per truck with the distance
    and the names of its walk; and the sum of the distances. *)
Definition truck_lines (cfg : Config) (m : RoutingModel) (vs : list nat)
           (rs : list (list nat)) : list OutLine :=
  map (fun vr => TruckLine (fst vr) (route_distance m (fst vr) (snd vr))
                           (map (name_at cfg m) (snd vr)))
      (combine vs rs).

Definition total_distance_of (m : RoutingModel) (vs : list nat)
           (rs : list (list nat)) : Z :=
  fold_right Z.add 0
             (map (fun vr => route_distance m (fst vr) (snd vr))
                  (combine vs rs)).

Definition no_solution_line : OutLine :=
  TextLine "No solution found. Try increasing Distance cap or time limit.".

(** A scenario without customers: one truck and nothing to serve. *)
Definition lone_depot_scenario : Config := {|
  locations_items := [ ("Depot A", (10, 50)) ];
  vehicles_per_depot_items := [ ("Depot A", 1) ]
|}.

(** The model of a scenario, when the script gets as far as the search. *)
Definition model_of (cfg : Config) : RoutingModel :=
  match build_model cfg with
  | Ok m => m
  | Raise _ => NewRoutingModel (RoutingIndexManager 0 0 [] [])
  end.

(** The balanced solution of the scenario of the script, as an assignment
    of its model. *)
Definition balanced_assignment : Assignment :=
  routes_assignment (model_of scenario) balanced_routes.

(** A scenario in which a customer has a name that starts with "Depot": one
    truck, based at Depot A, and five locations to serve. *)
Definition depot_named_customer_scenario : Config := {|
  locations_items :=
    [ ("Depot A", (10, 50)); ("Depot Road Shop", (12, 50));
      ("C1", (12, 45)); ("C2", (15, 55)); ("C3", (20, 48));
      ("C4", (18, 60)) ];
  vehicles_per_depot_items := [ ("Depot A", 1) ]
|}.

(** One route through all five: indices 0 to 5 are the locations, 6 is the
    end index. *)
Definition depot_named_customer_routes : list (list nat) :=
  [ [0; 1; 2; 4; 3; 5; 6] ]%nat.

(** The index of a depot among the nodes (0 when it has no location, in
    which case the script has raised). *)
Definition depot_index (cfg : Config) (depot_name : string) : nat :=
  match dict_get (index_of cfg) depot_name with
  | Some depot_idx => depot_idx
  | None => 0%nat
  end.

(** The node at which vehicle [v] is based. *)
Definition depot_of (cfg : Config) (v : nat) : nat :=
  nth v (starts_of cfg) 0%nat.

(** The locations that count against the capacity of the truck that serves
    them: no vehicle is based there and the name does not start with
    "Depot". *)
Definition counted_customers (cfg : Config) : list nat :=
  filter (fun node => negb (is_base cfg node) && negb (named_depot cfg node))
         (seq 0 (n cfg)).

(** The coordinate behind an index of the model. *)
Definition stop_coord (cfg : Config) (m : RoutingModel) (index : nat) : Coord :=
  coord_at cfg (IndexToNode (manager m) index).

(** The calls that draw one route: the line through the coordinates of its
    stops, then one label per stop. *)
Definition route_plot_calls (cfg : Config) (m : RoutingModel) (v : nat)
           (r : list nat) : list PlotCall :=
  plt_plot (map (fun i => fst (stop_coord cfg m i)) r)
           (map (fun i => snd (stop_coord cfg m i)) r)
           v (nth (v mod 6) colors "")
  :: map (fun i => plt_text (fst (stop_coord cfg m i))
                            (snd (stop_coord cfg m i))
                            (name_at cfg m i)) r.

Definition plot_decorations : list PlotCall :=
  [ plt_title "Balanced Collaborative Multi-Depot Routing";
    plt_xlabel "X"; plt_ylabel "Y"; plt_legend; plt_grid;
    plt_tight_layout; plt_show ].

(** The table of the nodes that the script prints before the routes. *)
Definition node_listing (cfg : Config) : list OutLine :=
  map (fun i => NodeLine i (nth i (node_names cfg) "") (coord_at cfg i))
      (seq 0 (n cfg)).

(** A scenario with five customers for a single truck, and the one route
    through all of them (index 6 is the end index). *)
Definition crowded_scenario : Config := {|
  locations_items :=
    [ ("Depot A", (10, 50));
      ("C1", (12, 45)); ("C2", (15, 55)); ("C3", (20, 48));
      ("C4", (18, 60)); ("C5", (22, 52)) ];
  vehicles_per_depot_items := [ ("Depot A", 1) ]
|}.

Definition crowded_routes : list (list nat) :=
  [ [0; 1; 3; 5; 2; 4; 6] ]%nat.

(** A scenario whose base is not named as a depot, and a route that serves
    its three customers (index 4 is the end index). *)
Definition hub_scenario : Config := {|
  locations_items :=
    [ ("Hub", (10, 50)); ("C1", (12, 45)); ("C2", (15, 55)); ("C3", (20, 48)) ];
  vehicles_per_depot_items := [ ("Hub", 1) ]
|}.

Definition hub_routes : list (list nat) := [ [0; 1; 3; 2; 4] ]%nat.

(* ========================================================================= *)
(** * Theorems *)
(* ========================================================================= *)

(* ------------------------------------------------------------------------- *)
(** ** Distance oracle *)
(* ------------------------------------------------------------------------- *)

Section RoundSqrt.

(** **** Rounding a float between two half integers *)







Lemma pow_4_square t : 0 <= t -> 4 ^ t = 2 ^ t * 2 ^ t.
Proof.
  intros Ht. change 4 with (2 * 2). now rewrite Z.pow_mul_l.
Qed.

Lemma float_pow_half_neighbour x :
  float_pow_half x = pow_half_floor x \/
  float_pow_half x = pow_half_floor x + 1.
Proof.
  unfold float_pow_half.
  destruct (0 <=? pow_half_scale x).
  - destruct (pow_half_floor x <?
              x * 4 ^ pow_half_scale x - pow_half_floor x * pow_half_floor x);
      [now right | now left].
  - destruct ((2 * pow_half_floor x + 1) ^ 2 * 4 ^ (- pow_half_scale x) <=?
              4 * x); [now right | now left].
Qed.



Lemma float_of_int_pos x : 0 < x -> 1 <= float_of_int x.
Proof.
  intros Hx. unfold float_of_int.
  destruct (Z.leb_spec (Z.log2 x - 52) 0) as [_ | He]; [lia |].
  cbv zeta.
  set (e := Z.log2 x - 52) in *.
  assert (Hpe : 0 < 2 ^ e) by (apply Z.pow_pos_nonneg; lia).
  assert (Hq : 2 ^ 52 <= x / 2 ^ e).
  { apply Z.div_le_lower_bound; [exact Hpe |].
    rewrite Z.mul_comm, <- Z.pow_add_r by lia.
    replace (52 + e) with (Z.log2 x) by (unfold e; lia).
    apply Z.log2_spec; exact Hx. }
  change (2 ^ 52) with 4503599627370496 in Hq.
  destruct ((2 ^ (e - 1) <? x mod 2 ^ e) ||
            ((x mod 2 ^ e =? 2 ^ (e - 1)) && Z.odd (x / 2 ^ e))); nia.
Qed.

Lemma pow_half_floor_lower x :
  1 <= x ->
  if 0 <=? pow_half_scale x then 2 ^ pow_half_scale x <= pow_half_floor x
  else 1 <= pow_half_floor x.
Proof.
  intros Hx. unfold pow_half_floor.
  destruct (Z.leb_spec 0 (pow_half_scale x)) as [Ht | Ht].
  - set (t := pow_half_scale x) in *.
    assert (HT : 0 < 2 ^ t) by (apply Z.pow_pos_nonneg; lia).
    rewrite <- (Z.sqrt_square (2 ^ t)) at 1 by lia.
    apply Z.sqrt_le_mono. rewrite pow_4_square by lia. nia.
  - unfold pow_half_scale in *.
    set (h := Z.log2 x / 2) in *.
    assert (Hh : 2 * h <= Z.log2 x).
    { unfold h. apply Z.mul_div_le. lia. }
    change 1 with (Z.sqrt 1) at 1. apply Z.sqrt_le_mono.
    assert (H4 : 0 < 4 ^ (- (52 - h))) by (apply Z.pow_pos_nonneg; lia).
    apply Z.div_le_lower_bound; [exact H4 |].
    rewrite Z.mul_1_r.
    change 4 with (2 ^ 2). rewrite <- Z.pow_mul_r by lia.
    apply Z.le_trans with (2 ^ Z.log2 x).
    + apply Z.pow_le_mono_r; lia.
    + apply Z.log2_spec. lia.
Qed.

Lemma py_round_pos N t :
  (if 0 <=? t then 2 ^ t <= N else 1 <= N) -> 1 <= py_round N t.
Proof.
  unfold py_round.
  destruct (Z.leb_spec 0 t) as [Ht | Ht]; intros HN.
  - destruct (Z.leb_spec t 0) as [Ht0 | Ht0].
    + assert (t = 0) as -> by lia. simpl in *. lia.
    + assert (HT : 0 < 2 ^ t) by (apply Z.pow_pos_nonneg; lia).
      assert (1 <= N / 2 ^ t).
      { apply Z.div_le_lower_bound; lia. }
      destruct ((2 ^ (t - 1) <? N mod 2 ^ t) ||
                ((N mod 2 ^ t =? 2 ^ (t - 1)) && Z.odd (N / 2 ^ t))); lia.
  - destruct (Z.leb_spec t 0) as [_ | ?]; [| lia].
    assert (0 < 2 ^ (- t)) by (apply Z.pow_pos_nonneg; lia). nia.
Qed.

Lemma round_sqrt_pos s : 0 < s -> 1 <= round_sqrt s.
Proof.
  intros Hs. unfold round_sqrt.
  destruct (Z.leb_spec s 0) as [? | _]; [lia |]. cbv zeta.
  pose proof (float_of_int_pos Hs) as Hx.
  set (x := float_of_int s) in *. clearbody x.
  apply py_round_pos.
  pose proof (pow_half_floor_lower Hx) as Hq.
  destruct (float_pow_half_neighbour x) as [-> | ->];
    destruct (0 <=? pow_half_scale x); lia.
Qed.

Lemma round_sqrt_nonneg s : 0 <= round_sqrt s.
Proof.
  destruct (Z.lt_ge_cases 0 s) as [Hs | Hs].
  - pose proof (round_sqrt_pos Hs). lia.
  - unfold round_sqrt. destruct (Z.leb_spec s 0); [lia | lia].
Qed.

Lemma round_sqrt_0 : round_sqrt 0 = 0.
Proof. reflexivity. Qed.






(** The float nearest to the root of [(2^53 + 1)^2] is [2^53]: the floats
    from [2^53] on are even integers. *)
Lemma round_sqrt_far_apart :
  round_sqrt (9007199254740993 ^ 2) = 9007199254740992.
Proof. vm_compute. reflexivity. Qed.


End RoundSqrt.

Section EuclidFacts.


Lemma sq_dist_sym a b : sq_dist a b = sq_dist b a.
Proof. unfold sq_dist. ring. Qed.

Lemma euclid_sq_dist a b : euclid a b = round_sqrt (sq_dist a b).
Proof. reflexivity. Qed.

Lemma euclid_sym a b : euclid a b = euclid b a.
Proof. rewrite !euclid_sq_dist, sq_dist_sym. reflexivity. Qed.

Lemma euclid_diag a : euclid a a = 0.
Proof.
  rewrite euclid_sq_dist. unfold sq_dist.
  replace ((fst a - fst a) ^ 2 + (snd a - snd a) ^ 2) with 0 by ring.
  apply round_sqrt_0.
Qed.

Lemma euclid_nonneg a b : 0 <= euclid a b.
Proof. apply round_sqrt_nonneg. Qed.

End EuclidFacts.

Section MatrixFacts.

Variable cfg : Config.

Lemma distance_matrix_length : List.length (distance_matrix cfg) = n cfg.
Proof. unfold distance_matrix. now rewrite length_map, length_seq. Qed.

Lemma matrix_entry_euclid i j :
  (i < n cfg)%nat -> (j < n cfg)%nat ->
  matrix_entry cfg i j = Some (euclid (coord_at cfg i) (coord_at cfg j)).
Proof.
  intros Hi Hj. unfold matrix_entry, distance_matrix.
  rewrite nth_error_map, nth_error_seq.
  destruct (Nat.ltb_spec i (n cfg)) as [_ | Hge]; [| lia]. simpl.
  rewrite nth_error_map, nth_error_seq.
  destruct (Nat.ltb_spec j (n cfg)) as [_ | Hge]; [| lia]. reflexivity.
Qed.

Lemma matrix_nth i j :
  (i < n cfg)%nat -> (j < n cfg)%nat ->
  nth j (nth i (distance_matrix cfg) []) 0 =
  euclid (coord_at cfg i) (coord_at cfg j).
Proof.
  intros Hi Hj.
  pose proof (matrix_entry_euclid Hi Hj) as H. unfold matrix_entry in H.
  destruct (nth_error (distance_matrix cfg) i) as [row |] eqn:Hrow;
    [| discriminate].
  rewrite (nth_error_nth _ _ [] Hrow).
  now apply nth_error_nth.
Qed.

End MatrixFacts.




(** The bound of C4 is of the right order: just above [2^50] the entry for
    [(0, 0)] and [(33558849, 5793)] is [33558850], while the exact root lies
    below [33558849.5]. *)
Example distance_matrix_above_bound :
  sq_dist (0, 0) (33558849, 5793) = 1126196379763650 /\
  2 ^ 50 < 1126196379763650 < 2 ^ 51 /\
  euclid (0, 0) (33558849, 5793) = 33558850 /\
  exact_round_sqrt (sq_dist (0, 0) (33558849, 5793)) = 33558849.
Proof.
  split; [vm_compute; reflexivity |].
  split; [split; vm_compute; reflexivity |].
  split; vm_compute; reflexivity.
Qed.

(** Depot A to C4 in the scenario of the script: the squared distance is 164,
    the entry is 13 and the truncated root is 12. *)
Example distance_matrix_not_truncated :
  matrix_entry scenario 0 5 = Some 13 /\
  sq_dist (coord_at scenario 0) (coord_at scenario 5) = 164 /\
  Z.sqrt 164 = 12.
Proof. vm_compute. repeat split. Qed.

(* ------------------------------------------------------------------------- *)
(** ** Dictionaries *)
(* ------------------------------------------------------------------------- *)

Section DictFacts.

Context {V : Type}.

Lemma dict_get_set (d : dict V) k v k' :
  dict_get (dict_set d k v) k' =
  if String.eqb k k' then Some v else dict_get d k'.
Proof.
  induction d as [| [k0 v0] d IH]; simpl.
  - reflexivity.
  - destruct (String.eqb_spec k0 k) as [-> | Hne]; simpl.
    + destruct (String.eqb k k'); reflexivity.
    + rewrite IH.
      destruct (String.eqb_spec k0 k') as [-> | Hne'].
      * destruct (String.eqb_spec k k') as [-> | _]; congruence.
      * reflexivity.
Qed.

Lemma keys_dict_set (d : dict V) k v :
  keys (dict_set d k v) = if existsb (String.eqb k) (keys d)
                          then keys d else keys d ++ [k].
Proof.
  induction d as [| [k0 v0] d IH]; simpl.
  - reflexivity.
  - destruct (String.eqb_spec k0 k) as [-> | Hne]; simpl.
    + now rewrite String.eqb_refl.
    + destruct (String.eqb_spec k k0) as [-> | _]; [congruence |]. simpl.
      change (map fst (dict_set d k v)) with (keys (dict_set d k v)).
      change (map fst d) with (keys d).
      rewrite IH.
      destruct (existsb (String.eqb k) (keys d)); reflexivity.
Qed.

Lemma existsb_eqb_In k (l : list string) :
  existsb (String.eqb k) l = true <-> In k l.
Proof.
  rewrite existsb_exists. split.
  - intros [x [Hx He]]. apply String.eqb_eq in He. now subst.
  - intros H. exists k. split; [assumption | apply String.eqb_refl].
Qed.

Lemma dict_get_None (d : dict V) k : dict_get d k = None <-> ~ In k (keys d).
Proof.
  induction d as [| [k0 v0] d IH]; simpl.
  - tauto.
  - destruct (String.eqb_spec k0 k) as [-> | Hne].
    + split; [discriminate | intros H; exfalso; apply H; now left].
    + rewrite IH. unfold keys. tauto.
Qed.

Lemma dict_get_In (d : dict V) k v : dict_get d k = Some v -> In (k, v) d.
Proof.
  induction d as [| [k0 v0] d IH]; simpl; [discriminate |].
  destruct (String.eqb_spec k0 k) as [-> | Hne].
  - intros [= ->]. now left.
  - intros H. right. now apply IH.
Qed.

Lemma NoDup_In_dict_get (d : dict V) k v :
  NoDup (keys d) -> In (k, v) d -> dict_get d k = Some v.
Proof.
  induction d as [| [k0 v0] d IH]; simpl; [tauto |].
  intros Hnd [Heq | Hin].
  - injection Heq as -> ->. now rewrite String.eqb_refl.
  - apply NoDup_cons_iff in Hnd as [Hnotin Hnd].
    destruct (String.eqb_spec k0 k) as [-> | Hne].
    + exfalso. apply Hnotin. unfold keys.
      change k with (fst (k, v)). now apply in_map.
    + now apply IH.
Qed.

(** The invariant of a dictionary under construction: distinct keys, all of
    them among the keys given so far, every binding one of the given items. *)
Lemma mkdict_fold (items : list (string * V)) (d : dict V) (seen : list (string * V)) :
  NoDup (keys d) ->
  (forall k, In k (keys d) <-> In k (map fst seen)) ->
  (forall k v, dict_get d k = Some v -> In (k, v) seen) ->
  let d' := fold_left (fun d kv => dict_set d (fst kv) (snd kv)) items d in
  NoDup (keys d') /\
  (forall k, In k (keys d') <-> In k (map fst (seen ++ items))) /\
  (forall k v, dict_get d' k = Some v -> In (k, v) (seen ++ items)).
Proof.
  revert d seen. induction items as [| [k0 v0] items IH]; intros d seen Hnd Hk Hv.
  - simpl. rewrite app_nil_r. auto.
  - simpl.
    replace (seen ++ (k0, v0) :: items) with ((seen ++ [(k0, v0)]) ++ items)
      by (rewrite <- app_assoc; reflexivity).
    apply IH.
    + rewrite keys_dict_set.
      destruct (existsb (String.eqb k0) (keys d)) eqn:He; [assumption |].
      apply NoDup_app; [assumption | repeat constructor; simpl; tauto |].
      intros a Ha [<- | []].
      apply existsb_eqb_In in Ha. congruence.
    + intros k. rewrite keys_dict_set, map_app, in_app_iff. simpl.
      destruct (existsb (String.eqb k0) (keys d)) eqn:He.
      * apply existsb_eqb_In in He. rewrite <- Hk.
        split; [tauto |]. intros [H | [<- | []]]; assumption.
      * rewrite in_app_iff, Hk. simpl. tauto.
    + intros k v. rewrite dict_get_set, in_app_iff. simpl.
      destruct (String.eqb_spec k0 k) as [-> | Hne].
      * intros [= ->]. tauto.
      * intros H. left. now apply Hv.
Qed.

Lemma mkdict_spec (items : list (string * V)) :
  NoDup (keys (mkdict items)) /\
  (forall k, In k (keys (mkdict items)) <-> In k (map fst items)) /\
  (forall k v, dict_get (mkdict items) k = Some v -> In (k, v) items).
Proof.
  unfold mkdict.
  apply (@mkdict_fold items [] []); simpl.
  - constructor.
  - tauto.
  - discriminate.
Qed.

End DictFacts.

Section HelperFacts.

Variable cfg : Config.

Lemma node_names_NoDup : NoDup (node_names cfg).
Proof. apply (mkdict_spec (locations_items cfg)). Qed.

Lemma n_node_names : n cfg = List.length (node_names cfg).
Proof. unfold n, coords. now rewrite length_map. Qed.

Lemma In_enumerate {A} (l : list A) (d : A) i x :
  In (i, x) (enumerate l) -> (i < List.length l)%nat /\ nth i l d = x.
Proof.
  unfold enumerate.
  assert (G : forall s, In (i, x) (combine (seq s (List.length l)) l) ->
                        (s <= i < s + List.length l)%nat /\ nth (i - s) l d = x).
  { induction l as [| y l IH]; simpl; intros s; [tauto |].
    intros [Heq | Hin].
    - injection Heq as -> ->. rewrite Nat.sub_diag. split; [lia | reflexivity].
    - apply IH in Hin as [Hr Hn]. split; [lia |].
      replace (i - s)%nat with (S (i - S s)) by lia. exact Hn. }
  intros H. apply G in H as [Hr Hn]. rewrite Nat.sub_0_r in Hn.
  split; [lia | assumption].
Qed.

(** [index_of[name]] is the position of [name] among the node names. *)
Lemma index_of_Some name i :
  dict_get (index_of cfg) name = Some i ->
  (i < n cfg)%nat /\ nth i (node_names cfg) "" = name.
Proof.
  intros H. unfold index_of in H.
  apply mkdict_spec in H. apply in_map_iff in H as [[j x] [Heq Hin]].
  simpl in Heq. injection Heq as -> ->.
  rewrite n_node_names. now apply In_enumerate.
Qed.

Lemma map_snd_combine {A B} (l : list A) (l' : list B) :
  List.length l = List.length l' -> map snd (combine l l') = l'.
Proof.
  revert l'. induction l as [| x l IH]; intros [| y l']; simpl;
    try discriminate; try reflexivity.
  intros [= H]. now rewrite IH.
Qed.

Lemma index_of_keys name :
  In name (keys (index_of cfg)) <-> In name (node_names cfg).
Proof.
  unfold index_of.
  destruct (mkdict_spec (map (fun p : nat * string => (snd p, fst p))
                             (enumerate (node_names cfg)))) as [_ [Hk _]].
  rewrite Hk, map_map. simpl.
  unfold enumerate.
  change (map (fun x : nat * string => snd x)) with (map (@snd nat string)).
  rewrite map_snd_combine; [tauto | apply length_seq].
Qed.

Lemma index_of_None name :
  dict_get (index_of cfg) name = None <-> ~ In name (node_names cfg).
Proof. rewrite dict_get_None, index_of_keys. tauto. Qed.

End HelperFacts.

(* ------------------------------------------------------------------------- *)
(** ** Starts and ends *)
(* ------------------------------------------------------------------------- *)

Section StartsEndsFacts.

Variable cfg : Config.

Lemma append_vehicles_eq depot_idx cnt starts ends :
  append_vehicles depot_idx cnt starts ends =
  (starts ++ repeat depot_idx (Z.to_nat cnt),
   ends ++ repeat depot_idx (Z.to_nat cnt)).
Proof.
  unfold append_vehicles, range.
  generalize 0%nat as a. generalize (Z.to_nat cnt) as k.
  intros k. revert starts ends.
  induction k as [| k IH]; intros starts ends a; simpl.
  - now rewrite !app_nil_r.
  - rewrite IH. simpl. now rewrite <- !app_assoc.
Qed.


Lemma starts_ends_loop_Ok items starts ends starts' ends' :
  starts_ends_loop cfg items starts ends = Ok (starts', ends') ->
  (starts = ends -> starts' = ends') /\
  ((forall x, In x starts -> (x < n cfg)%nat) ->
   forall x, In x starts' -> (x < n cfg)%nat) /\
  (forall x, In x starts -> In x starts') /\
  (forall name cnt idx,
      In (name, cnt) items -> 0 < cnt ->
      dict_get (index_of cfg) name = Some idx -> In idx starts') /\
  List.length starts' =
  (List.length starts + list_sum (map (fun kv => Z.to_nat (snd kv)) items))%nat.
Proof.
  revert starts ends.
  induction items as [| [depot_name cnt] items IH]; intros starts ends; simpl.
  - intros [= <- <-]. repeat split; auto; try lia; try tauto.
  - destruct (dict_get (index_of cfg) depot_name) as [idx |] eqn:Hget;
      [| discriminate].
    rewrite append_vehicles_eq. simpl. intros H.
    apply IH in H as (Heq & Hlt & Hincl & Hdep & Hlen).
    repeat split.
    + intros ->. now apply Heq.
    + intros Hs. apply Hlt. intros x Hx.
      apply in_app_or in Hx as [Hx | Hx]; [now apply Hs |].
      apply repeat_spec in Hx. subst x. now apply (index_of_Some cfg depot_name).
    + intros x Hx. apply Hincl, in_or_app. now left.
    + intros name c i [Heq' | Hin] Hpos Hi.
      * injection Heq' as -> ->. apply Hincl, in_or_app. right.
        assert (i = idx) by congruence. subst i.
        destruct (Z.to_nat c) eqn:Hc; [lia |]. now left.
      * now apply (Hdep name c i).
    + rewrite Hlen, length_app, repeat_length. lia.
Qed.

Lemma starts_ends_Ok starts ends :
  starts_ends cfg = Ok (starts, ends) ->
  starts = ends /\
  (forall x, In x starts -> (x < n cfg)%nat) /\
  (forall name cnt idx,
      dict_get (vehicles_per_depot cfg) name = Some cnt -> 0 < cnt ->
      dict_get (index_of cfg) name = Some idx -> In idx starts) /\
  List.length starts =
  list_sum (map (fun kv => Z.to_nat (snd kv)) (vehicles_per_depot cfg)).
Proof.
  unfold starts_ends. intros H.
  apply starts_ends_loop_Ok in H as (Heq & Hlt & _ & Hdep & Hlen).
  repeat split.
  - now apply Heq.
  - apply Hlt. intros x [].
  - intros name cnt idx Hget. apply Hdep. now apply dict_get_In.
  - exact Hlen.
Qed.


End StartsEndsFacts.

(* ------------------------------------------------------------------------- *)
(** ** Shape of the declared model *)
(* ------------------------------------------------------------------------- *)

Section ModelShape.

Variable cfg : Config.

Lemma declare_model_eq starts ends :
  let mg := RoutingIndexManager (n cfg) (List.length starts) starts ends in
  declare_model cfg starts ends =
  {| manager := mg;
     transit_evaluators :=
       [ dist_cb (distance_matrix cfg) mg;
         (fun from_index _ => demand_cb (node_names cfg) mg from_index);
         one_per_arc_cb ];
     arc_cost_evaluator := Some 0%nat;
     dimensions :=
       [ {| dim_name := "Capacity"; dim_evaluator := 1;
            dim_slack_max := 0;
            dim_capacities := repeat 4 (List.length starts);
            dim_fix_start_cumul_to_zero := true |};
         {| dim_name := "Distance"; dim_evaluator := 0;
            dim_slack_max := 0;
            dim_capacities := repeat 120 (List.length starts);
            dim_fix_start_cumul_to_zero := true |};
         {| dim_name := "ArcCount"; dim_evaluator := 2;
            dim_slack_max := 0;
            dim_capacities := repeat 1000 (List.length starts);
            dim_fix_start_cumul_to_zero := true |} ];
     solver_constraints := [] |}.
Proof. reflexivity. Qed.

Lemma fold_SolverAdd (d : Dimension) (vs : list nat) (m : RoutingModel) :
  fold_left (fun r v => SolverAdd (GreaterOrEqual (CumulVar d (End r v)) 2) r)
            vs m =
  {| manager := manager m;
     transit_evaluators := transit_evaluators m;
     arc_cost_evaluator := arc_cost_evaluator m;
     dimensions := dimensions m;
     solver_constraints :=
       solver_constraints m ++
       map (fun v => GreaterOrEqual (CumulVar d (End m v)) 2) vs |}.
Proof.
  revert m. induction vs as [| v vs IH]; intros m; simpl.
  - rewrite app_nil_r. now destruct m.
  - rewrite IH. simpl. now rewrite <- app_assoc.
Qed.

(** The model handed to the search. *)
Lemma build_model_Ok m :
  build_model cfg = Ok m ->
  exists starts ends,
    starts_ends cfg = Ok (starts, ends) /\
    let mg := RoutingIndexManager (n cfg) (List.length starts) starts ends in
    manager m = mg /\
    transit_evaluators m =
      [ dist_cb (distance_matrix cfg) mg;
        (fun from_index _ => demand_cb (node_names cfg) mg from_index);
        one_per_arc_cb ] /\
    arc_cost_evaluator m = Some 0%nat /\
    dimensions m = dimensions (declare_model cfg starts ends) /\
    solver_constraints m =
      map (fun v => GreaterOrEqual (CumulVarOf "ArcCount" (End m v)) 2)
          (seq 0 (List.length starts)).
Proof.
  unfold build_model.
  destruct (starts_ends cfg) as [[starts ends] | e] eqn:Hse; simpl;
    [| discriminate].
  unfold add_min_visit. rewrite declare_model_eq.
  cbv beta zeta. unfold GetDimensionOrDie. simpl find. cbv beta iota.
  rewrite fold_SolverAdd. intros [= <-].
  exists starts, ends. split; [reflexivity |].
  cbv zeta. repeat split.
Qed.

Lemma build_model_succeeds starts ends :
  starts_ends cfg = Ok (starts, ends) -> exists m, build_model cfg = Ok m.
Proof.
  intros Hse. unfold build_model. rewrite Hse. simpl.
  unfold add_min_visit. rewrite declare_model_eq.
  cbv beta zeta. unfold GetDimensionOrDie. simpl find. cbv beta iota. eauto.
Qed.

End ModelShape.

(* ------------------------------------------------------------------------- *)
(** ** Malformed scenarios *)
(* ------------------------------------------------------------------------- *)

(** The script has no validation of its own.  A depot without a coordinate
    ends the run with the [KeyError] of the lookup [index_of[depot_name]]. *)
Example missing_depot_run :
  forall fuel matplotlib solve,
    program missing_depot_scenario fuel matplotlib solve =
    Uncaught (KeyError "Depot Z").
Proof. intros. reflexivity. Qed.




(* ------------------------------------------------------------------------- *)
(** ** Lists *)
(* ------------------------------------------------------------------------- *)

Section ListFacts.

Lemma mem_In x l : mem x l = true <-> In x l.
Proof.
  unfold mem. rewrite existsb_exists. split.
  - intros [y [Hy He]]. apply Nat.eqb_eq in He. now subst.
  - intros H. exists x. split; [assumption | apply Nat.eqb_refl].
Qed.

Lemma mem_false x l : mem x l = false <-> ~ In x l.
Proof.
  rewrite <- mem_In. destruct (mem x l); split; congruence.
Qed.

Lemma nodupb_NoDup l : nodupb l = true <-> NoDup l.
Proof.
  induction l as [| x l IH]; simpl.
  - split; [constructor | reflexivity].
  - rewrite andb_true_iff, negb_true_iff, mem_false, IH, NoDup_cons_iff.
    tauto.
Qed.

Lemma NoDup_flat_map_each {A} (f : A -> list nat) l a :
  NoDup (flat_map f l) -> In a l -> NoDup (f a).
Proof.
  induction l as [| b l IH]; simpl; [tauto |].
  intros Hnd [-> | Hin].
  - now apply NoDup_app_remove_r in Hnd.
  - apply IH; [| assumption]. now apply NoDup_app_remove_l in Hnd.
Qed.

Lemma NoDup_app_disjoint (l1 l2 : list nat) x :
  NoDup (l1 ++ l2) -> In x l1 -> In x l2 -> False.
Proof.
  induction l1 as [| y l1 IH]; simpl; [tauto |].
  intros Hnd [-> | Hin] H2.
  - apply NoDup_cons_iff in Hnd as [Hn _]. apply Hn, in_or_app. now right.
  - apply NoDup_cons_iff in Hnd as [_ Hnd]. now apply IH.
Qed.

Lemma NoDup_flat_map_disjoint {A} (f : A -> list nat) l a b x :
  NoDup l -> NoDup (flat_map f l) ->
  In a l -> In b l -> In x (f a) -> In x (f b) -> a = b.
Proof.
  induction l as [| c l IH]; simpl; [tauto |].
  intros Hl Hnd Ha Hb Hxa Hxb.
  apply NoDup_cons_iff in Hl as [Hc Hl].
  destruct Ha as [-> | Ha], Hb as [-> | Hb]; try reflexivity.
  - exfalso. apply (NoDup_app_disjoint _ _ x Hnd Hxa).
    apply in_flat_map. eauto.
  - exfalso. apply (NoDup_app_disjoint _ _ x Hnd Hxb).
    apply in_flat_map. eauto.
  - apply IH; auto. now apply NoDup_app_remove_l in Hnd.
Qed.

Lemma position_nth l i :
  NoDup l -> (i < List.length l)%nat -> position (nth i l 0%nat) l = Some i.
Proof.
  revert i. induction l as [| y l IH]; simpl; intros i Hnd Hi; [lia |].
  apply NoDup_cons_iff in Hnd as [Hy Hnd].
  destruct i as [| i].
  - now rewrite Nat.eqb_refl.
  - destruct (Nat.eqb_spec y (nth i l 0%nat)) as [-> | _].
    + exfalso. apply Hy, nth_In. lia.
    + rewrite IH; [reflexivity | assumption | lia].
Qed.

Lemma position_In l x :
  In x l -> exists i, position x l = Some i /\ (i < List.length l)%nat.
Proof.
  induction l as [| y l IH]; simpl; [tauto |].
  intros H. destruct (Nat.eqb_spec y x) as [-> | Hne].
  - exists 0%nat. split; [reflexivity | lia].
  - destruct H as [-> | H]; [congruence |].
    destruct (IH H) as [i [-> Hi]]. exists (S i). split; [reflexivity | lia].
Qed.

End ListFacts.

(* ------------------------------------------------------------------------- *)
(** ** Index manager *)
(* ------------------------------------------------------------------------- *)

Section ManagerFacts.

Variables (nodes : nat) (starts ends : list nat).

Let regular := regular_nodes nodes starts ends.

Lemma regular_NoDup : NoDup regular.
Proof. apply NoDup_filter, seq_NoDup. Qed.

Lemma regular_In x :
  In x regular <-> (x < nodes)%nat /\ (In x starts \/ ~ In x ends).
Proof.
  unfold regular, regular_nodes.
  rewrite filter_In, in_seq, orb_true_iff, negb_true_iff, mem_In, mem_false.
  intuition lia.
Qed.

Lemma node_to_index_nth i :
  (i < List.length regular)%nat ->
  node_to_index regular (nth i regular 0%nat) = i.
Proof.
  intros Hi. unfold node_to_index.
  now rewrite position_nth by (auto using regular_NoDup).
Qed.

Lemma node_to_index_lt x :
  In x regular -> (node_to_index regular x < List.length regular)%nat.
Proof.
  intros H. unfold node_to_index.
  now destruct (position_In _ _ H) as [i [-> Hi]].
Qed.

Lemma place_starts_spec sts :
  forall seen itn vts itn' vts',
    place_starts regular sts seen itn vts = (itn', vts') ->
    (exists extra, itn' = itn ++ extra) /\
    (forall k, (List.length itn <= k < List.length itn')%nat -> In k vts') /\
    (forall s, In s sts -> ~ In s seen ->
               In (node_to_index regular s) vts') /\
    (forall k, In k vts -> In k vts') /\
    List.length vts' = (List.length vts + List.length sts)%nat.
Proof.
  induction sts as [| start rest IH]; intros seen itn vts itn' vts'; simpl.
  - intros [= <- <-]. repeat split; try tauto; try lia.
    exists []. now rewrite app_nil_r.
  - destruct (mem start seen) eqn:Hseen; intros H;
      apply IH in H as ([extra ->] & Hfresh & Hfirst & Hmono & Hlen).
    + apply mem_In in Hseen. repeat split.
      * exists (start :: extra). now rewrite <- app_assoc.
      * intros k Hk. rewrite !length_app in Hk. simpl in Hk.
        destruct (Nat.eq_dec k (List.length itn)) as [-> | Hne].
        -- apply Hmono, in_or_app. right. now left.
        -- apply Hfresh. rewrite !length_app. simpl. lia.
      * intros s [<- | Hs] Hn; [contradiction | now apply Hfirst].
      * intros k Hk. apply Hmono, in_or_app. now left.
      * rewrite Hlen, length_app. simpl. lia.
    + apply mem_false in Hseen. repeat split.
      * now exists extra.
      * exact Hfresh.
      * intros s [<- | Hs] Hn.
        -- apply Hmono, in_or_app. right. now left.
        -- destruct (Nat.eq_dec start s) as [<- | Hne].
           ++ apply Hmono, in_or_app. right. now left.
           ++ apply Hfirst; [assumption |]. simpl. tauto.
      * intros k Hk. apply Hmono, in_or_app. now left.
      * rewrite Hlen, length_app. simpl. lia.
Qed.

Lemma place_starts_bound sts :
  forall seen itn vts itn' vts',
    place_starts regular sts seen itn vts = (itn', vts') ->
    (forall s, In s sts -> In s regular) ->
    (List.length regular <= List.length itn)%nat ->
    forall k, In k vts' -> In k vts \/ (k < List.length itn')%nat.
Proof.
  induction sts as [| start rest IH]; intros seen itn vts itn' vts'; simpl.
  - intros [= <- <-]. tauto.
  - destruct (mem start seen) eqn:Hseen; intros H Hreg Hlen k Hk;
      pose proof (place_starts_spec _ _ _ _ H) as ([extra Hex] & _);
      eapply IH in H; eauto; try (rewrite length_app; simpl; lia).
    + destruct H as [H | H]; [| now right].
      apply in_app_or in H as [H | [<- | []]]; [now left | right].
      subst itn'. rewrite !length_app. simpl. lia.
    + destruct H as [H | H]; [| now right].
      apply in_app_or in H as [H | [<- | []]]; [now left | right].
      subst itn'. rewrite length_app.
      assert (Hsr : In start regular) by (apply Hreg; now left).
      pose proof (node_to_index_lt _ Hsr). lia.
Qed.

Variable nv : nat.

Let mg := RoutingIndexManager nodes nv starts ends.

Lemma vehicle_to_start_length :
  List.length (vehicle_to_start mg) = List.length starts.
Proof.
  unfold mg, RoutingIndexManager. simpl.
  destruct (place_starts _ starts [] _ []) as [itn' vts'] eqn:Hp.
  apply place_starts_spec in Hp as (_ & _ & _ & _ & Hlen). exact Hlen.
Qed.

(** An index below [size] that is no vehicle's start stands for a node at
    which no vehicle starts or ends. *)
Lemma inner_index_node x :
  (x < size mg)%nat -> ~ In x (vehicle_to_start mg) ->
  (x < List.length regular)%nat /\
  IndexToNode mg x = nth x regular 0%nat /\
  (IndexToNode mg x < nodes)%nat /\
  ~ In (IndexToNode mg x) starts /\
  ~ In (IndexToNode mg x) ends.
Proof.
  unfold IndexToNode, mg, RoutingIndexManager. simpl.
  fold regular.
  destruct (place_starts regular starts [] regular []) as [itn' vts'] eqn:Hp.
  simpl. intros Hx Hnot.
  apply place_starts_spec in Hp as ([extra ->] & Hfresh & Hfirst & _ & _).
  assert (Hlt : (x < List.length regular)%nat).
  { destruct (Nat.lt_ge_cases x (List.length regular)) as [H | H];
      [assumption |].
    exfalso. apply Hnot, Hfresh. lia. }
  rewrite <- app_assoc, app_nth1 by assumption.
  assert (Hin : In (nth x regular 0%nat) regular) by (now apply nth_In).
  assert (Hns : ~ In (nth x regular 0%nat) starts).
  { intros Hs. apply Hnot.
    rewrite <- (node_to_index_nth Hlt). apply Hfirst; [assumption | tauto]. }
  apply regular_In in Hin as [Hn Hse].
  repeat split; try assumption. tauto.
Qed.

Lemma start_index_lt k :
  (forall s, In s starts -> (s < nodes)%nat) ->
  In k (vehicle_to_start mg) -> (k < size mg)%nat.
Proof.
  unfold mg, RoutingIndexManager. simpl. fold regular.
  destruct (place_starts regular starts [] regular []) as [itn' vts'] eqn:Hp.
  simpl. intros Hs Hk.
  eapply place_starts_bound in Hp; eauto.
  - destruct Hp as [[] | Hp]. exact Hp.
  - intros s H. apply regular_In. split; [now apply Hs | now left].
Qed.

Lemma vehicle_to_end_nth v :
  (v < nv)%nat -> nth v (vehicle_to_end mg) 0%nat = (size mg + v)%nat.
Proof. intros Hv. unfold mg, RoutingIndexManager. simpl. now apply seq_nth. Qed.

End ManagerFacts.

(* ------------------------------------------------------------------------- *)
(** ** Routes *)
(* ------------------------------------------------------------------------- *)

Section PathCost.

Lemma arcs_cons2 x y t : arcs (x :: y :: t) = (x, y) :: arcs (y :: t).
Proof. reflexivity. Qed.

Lemma path_cost_cons2 cost x y t :
  path_cost cost (x :: y :: t) = cost x y + path_cost cost (y :: t).
Proof. reflexivity. Qed.

Lemma path_cost_ext cost cost' r :
  (forall i j, cost i j = cost' i j) -> path_cost cost r = path_cost cost' r.
Proof.
  intros H. unfold path_cost.
  induction (arcs r) as [| x l IH]; simpl; [reflexivity |].
  now rewrite IH, H.
Qed.

Lemma path_cost_single cost x : path_cost cost [x] = 0.
Proof. reflexivity. Qed.

Lemma removelast_cons2 {A} (x y : A) t :
  removelast (x :: y :: t) = x :: removelast (y :: t).
Proof. reflexivity. Qed.

(** A transit of one per arc counts the arcs. *)
Lemma path_cost_one r :
  r <> [] ->
  path_cost one_per_arc_cb r = Z.of_nat (List.length r) - 1.
Proof.
  induction r as [| x [| y t] IH]; intros H.
  - congruence.
  - reflexivity.
  - rewrite path_cost_cons2, IH by discriminate.
    unfold one_per_arc_cb.
    change (List.length (x :: y :: t)) with (S (List.length (y :: t))). lia.
Qed.

(** A transit read at the origin of the arc adds up over every stop but the
    last. *)
Lemma path_cost_unary (f : nat -> Z) r :
  path_cost (fun i _ => f i) r =
  fold_right Z.add 0 (map f (removelast r)).
Proof.
  induction r as [| x [| y t] IH].
  - reflexivity.
  - reflexivity.
  - rewrite path_cost_cons2, IH, removelast_cons2. reflexivity.
Qed.

Lemma sum_indicator {A} (p : A -> bool) (l : list A) :
  fold_right Z.add 0 (map (fun x => if p x then 0 else 1) l) =
  Z.of_nat (List.length (filter (fun x => negb (p x)) l)).
Proof.
  induction l as [| x l IH]; [reflexivity |].
  cbn [map fold_right filter]. rewrite IH.
  destruct (p x); cbn [negb List.length]; lia.
Qed.

End PathCost.

Section RouteFacts.

Variable m : RoutingModel.
Variable a : Assignment.

Lemma walk_eq fuel i :
  walk m a fuel i =
  if IsEnd m i then Some [i]
  else match fuel with
       | O => None
       | S fuel' => option_map (cons i) (walk m a fuel' (next a i))
       end.
Proof. destruct fuel; reflexivity. Qed.

Lemma walk_hd fuel i r : walk m a fuel i = Some r -> exists t, r = i :: t.
Proof.
  rewrite walk_eq. destruct (IsEnd m i).
  - intros [= <-]. eauto.
  - destruct fuel as [| fuel]; [discriminate |].
    destruct (walk m a fuel (next a i)) as [t |]; [| discriminate].
    intros [= <-]. eauto.
Qed.

Lemma walk_body fuel :
  forall i r, walk m a fuel i = Some r ->
              forall x, In x (removelast r) -> IsEnd m x = false.
Proof.
  induction fuel as [| fuel IH]; intros i r; rewrite walk_eq;
    destruct (IsEnd m i) eqn:He; try discriminate;
    try (intros [= <-] x []).
  destruct (walk m a fuel (next a i)) as [t |] eqn:Hw; [| discriminate].
  intros [= <-] x. destruct (walk_hd _ _ Hw) as [t' ->].
  rewrite removelast_cons2. intros [<- | Hx]; [assumption |].
  now apply (IH _ _ Hw).
Qed.

Lemma walk_last fuel :
  forall i r, walk m a fuel i = Some r -> IsEnd m (last r 0%nat) = true.
Proof.
  induction fuel as [| fuel IH]; intros i r; rewrite walk_eq;
    destruct (IsEnd m i) eqn:He; try discriminate;
    try (intros [= <-]; assumption).
  destruct (walk m a fuel (next a i)) as [t |] eqn:Hw; [| discriminate].
  intros [= <-]. destruct (walk_hd _ _ Hw) as [t' ->].
  change (last (i :: next a i :: t') 0%nat) with (last (next a i :: t') 0%nat).
  now apply (IH _ _ Hw).
Qed.

Lemma walk_mono fuel :
  forall fuel' i r, walk m a fuel i = Some r -> (fuel <= fuel')%nat ->
                    walk m a fuel' i = Some r.
Proof.
  induction fuel as [| fuel IH]; intros fuel' i r;
    rewrite (walk_eq _ i), (walk_eq fuel' i);
    destruct (IsEnd m i) eqn:He; try discriminate; try tauto.
  destruct (walk m a fuel (next a i)) as [t |] eqn:Hw; [| discriminate].
  intros [= <-] Hle. destruct fuel' as [| fuel']; [lia |].
  rewrite (IH fuel' _ _ Hw) by lia. reflexivity.
Qed.

(** With no slack the cumulative value at the end of a path is the value at
    its head plus the transits along it. *)
Lemma cumul_along (d : Dimension) r :
  dim_slack_max d = 0 -> r <> [] ->
  forallb (arc_okb m a d) (arcs r) = true ->
  cumul a d (last r 0%nat) =
  cumul a d (hd 0%nat r) + path_cost (evaluator m (dim_evaluator d)) r.
Proof.
  intros Hslack.
  induction r as [| x [| y t] IH]; intros Hne Hok.
  - congruence.
  - simpl. rewrite path_cost_single. lia.
  - rewrite arcs_cons2 in Hok. simpl forallb in Hok.
    apply andb_true_iff in Hok as [Harc Hok].
    change (last (x :: y :: t) 0%nat) with (last (y :: t) 0%nat).
    rewrite IH by (discriminate || assumption).
    rewrite path_cost_cons2. simpl hd.
    unfold arc_okb in Harc. simpl fst in Harc. simpl snd in Harc.
    rewrite Hslack in Harc.
    apply andb_true_iff in Harc as [H1 H2].
    apply Z.leb_le in H1, H2. lia.
Qed.

Lemma feasible_inv :
  feasible m a ->
  (forall v, (v < vehicles m)%nat ->
             exists r, route m a v = Some r /\ last r 0%nat = End m v) /\
  NoDup (visited m a) /\
  List.length (visited m a) = Size m /\
  (forall d v, In d (dimensions m) -> (v < vehicles m)%nat ->
               dimension_okb m a d v = true) /\
  (forall c, In c (solver_constraints m) -> holdsb a c = true).
Proof.
  unfold feasible, feasibleb, paths_okb.
  rewrite !andb_true_iff, !forallb_forall, nodupb_NoDup, Nat.eqb_eq.
  intros [[[[Hroute Hnd] Hlen] Hdim] Hcon].
  repeat split; try assumption.
  - intros v Hv. specialize (Hroute v).
    unfold route_okb in Hroute.
    destruct (route m a v) as [r |].
    + exists r. split; [reflexivity |].
      apply Nat.eqb_eq, Hroute, in_seq. lia.
    + discriminate Hroute. apply in_seq. lia.
  - intros d v Hd Hv. specialize (Hdim d Hd).
    rewrite forallb_forall in Hdim. apply Hdim, in_seq. lia.
Qed.

(** The cumulative value of a dimension without slack and fixed to zero at
    the start is, at the end of a route, the sum of the transits along the
    route; it respects the vehicle's capacity. *)
Lemma end_cumul (d : Dimension) v r :
  feasible m a -> In d (dimensions m) -> (v < vehicles m)%nat ->
  dim_slack_max d = 0 -> dim_fix_start_cumul_to_zero d = true ->
  route m a v = Some r ->
  cumul a d (End m v) = path_cost (evaluator m (dim_evaluator d)) r /\
  0 <= cumul a d (End m v) <= nth v (dim_capacities d) 0.
Proof.
  intros Hf Hd Hv Hslack Hfix Hr.
  destruct (feasible_inv Hf) as (Hroute & _ & _ & Hdim & _).
  destruct (Hroute v Hv) as (r' & Hr' & Hlast).
  rewrite Hr in Hr'. injection Hr' as <-.
  specialize (Hdim d v Hd Hv). unfold dimension_okb in Hdim.
  rewrite Hr, Hfix in Hdim.
  apply andb_true_iff in Hdim as [Hdim Hbound].
  apply andb_true_iff in Hdim as [Hstart Harcs].
  apply Z.eqb_eq in Hstart.
  destruct (walk_hd _ _ Hr) as [t ->].
  rewrite <- Hlast. split.
  - rewrite cumul_along by (assumption || discriminate).
    simpl hd. rewrite Hstart. lia.
  - rewrite forallb_forall in Hbound.
    assert (Hin : In (last (Start m v :: t) 0%nat) (Start m v :: t)).
    { destruct (@exists_last _ (Start m v :: t)) as (l' & z & Heq);
        [discriminate |].
      rewrite Heq, last_last. apply in_or_app. right. now left. }
    specialize (Hbound _ Hin). unfold bound_okb in Hbound.
    apply andb_true_iff in Hbound as [H1 H2].
    apply Z.leb_le in H1, H2. lia.
Qed.

End RouteFacts.

(* ------------------------------------------------------------------------- *)
(** ** Routes of the declared model *)
(* ------------------------------------------------------------------------- *)

Section BuiltModel.

Variable cfg : Config.
Variable m : RoutingModel.
Hypothesis Hm : build_model cfg = Ok m.

Lemma built_starts :
  exists starts,
    starts_ends cfg = Ok (starts, starts) /\
    starts_of cfg = starts /\
    manager m = RoutingIndexManager (n cfg) (List.length starts) starts starts /\
    vehicles m = List.length starts /\
    (forall s, In s starts -> (s < n cfg)%nat).
Proof.
  destruct (build_model_Ok cfg Hm) as (starts & ends & Hse & Hmg & _).
  destruct (starts_ends_Ok cfg Hse) as (<- & Hlt & _).
  exists starts. repeat split; try assumption.
  - unfold starts_of. now rewrite Hse.
  - unfold vehicles. now rewrite Hmg.
Qed.

Lemma built_dimensions :
  dimensions m =
  [ {| dim_name := "Capacity"; dim_evaluator := 1; dim_slack_max := 0;
       dim_capacities := repeat 4 (vehicles m);
       dim_fix_start_cumul_to_zero := true |};
    {| dim_name := "Distance"; dim_evaluator := 0; dim_slack_max := 0;
       dim_capacities := repeat 120 (vehicles m);
       dim_fix_start_cumul_to_zero := true |};
    {| dim_name := "ArcCount"; dim_evaluator := 2; dim_slack_max := 0;
       dim_capacities := repeat 1000 (vehicles m);
       dim_fix_start_cumul_to_zero := true |} ].
Proof.
  destruct (build_model_Ok cfg Hm) as (starts & ends & _ & Hmg & _ & _ & Hd & _).
  rewrite Hd. unfold vehicles. rewrite Hmg. reflexivity.
Qed.

Lemma built_constraints :
  solver_constraints m =
  map (fun v => GreaterOrEqual (CumulVarOf "ArcCount" (End m v)) 2)
      (seq 0 (vehicles m)).
Proof.
  destruct (build_model_Ok cfg Hm) as (starts & ends & _ & Hmg & _ & _ & _ & Hc).
  rewrite Hc. unfold vehicles. rewrite Hmg. reflexivity.
Qed.

Lemma built_evaluators :
  (forall i j,
      evaluator m 0 i j =
      nth (IndexToNode (manager m) j)
          (nth (IndexToNode (manager m) i) (distance_matrix cfg) []) 0) /\
  (forall i j,
      evaluator m 1 i j =
      if named_depot cfg (IndexToNode (manager m) i) then 0 else 1) /\
  (forall i j, evaluator m 2 i j = 1) /\
  (forall i j v, GetArcCostForVehicle m i j v = evaluator m 0 i j).
Proof.
  destruct (build_model_Ok cfg Hm) as (starts & ends & _ & Hmg & Ht & Hc & _).
  unfold GetArcCostForVehicle, evaluator. rewrite Ht, Hc, Hmg.
  repeat split.
Qed.

Lemma start_lt_Size v : (v < vehicles m)%nat -> (Start m v < Size m)%nat.
Proof.
  destruct built_starts as (starts & _ & _ & Hmg & Hnv & Hlt).
  intros Hv. unfold Start, Size. rewrite Hmg.
  apply start_index_lt; [assumption |].
  apply nth_In. rewrite vehicle_to_start_length. lia.
Qed.

Section FeasibleAssignment.

Variable a : Assignment.
Hypothesis Hf : feasible m a.

(** The assignment is the constraint of the ArcCount dimension: at least two
    arcs, hence at least three stops, on every route. *)
Lemma route_three_stops v :
  (v < vehicles m)%nat ->
  exists r, route m a v = Some r /\ last r 0%nat = End m v /\
            (3 <= List.length r)%nat.
Proof.
  intros Hv.
  destruct (feasible_inv Hf) as (Hroute & _ & _ & _ & Hcon).
  destruct (Hroute v Hv) as (r & Hr & Hlast).
  exists r. repeat split; try assumption.
  set (d := {| dim_name := "ArcCount"; dim_evaluator := 2; dim_slack_max := 0;
               dim_capacities := repeat 1000 (vehicles m);
               dim_fix_start_cumul_to_zero := true |}).
  assert (Hd : In d (dimensions m)).
  { rewrite built_dimensions. right. right. now left. }
  destruct (end_cumul d Hf Hd Hv eq_refl eq_refl Hr) as [Hc _].
  assert (Hge : holdsb a (GreaterOrEqual (CumulVarOf "ArcCount" (End m v)) 2)
                = true).
  { apply Hcon. rewrite built_constraints.
    apply in_map_iff. exists v. split; [reflexivity | apply in_seq; lia]. }
  simpl in Hge. apply Z.leb_le in Hge.
  change (a (CumulVarOf "ArcCount" (End m v))) with (cumul a d (End m v)) in Hge.
  rewrite Hc in Hge.
  destruct (walk_hd _ _ _ _ Hr) as [t ->].
  assert (Heq : path_cost (evaluator m (dim_evaluator d)) (Start m v :: t) =
                path_cost one_per_arc_cb (Start m v :: t)).
  { apply path_cost_ext. apply built_evaluators. }
  rewrite Heq, path_cost_one in Hge by discriminate. lia.
Qed.

Lemma intermediate_in_body r x :
  In x (intermediate_stops r) -> In x (removelast r).
Proof.
  unfold intermediate_stops. destruct (removelast r); simpl; tauto.
Qed.

(** A stop between the start and the end of a route is an index with a
    successor that is no vehicle's start. *)
Lemma intermediate_inner v r x :
  (v < vehicles m)%nat -> route m a v = Some r ->
  In x (intermediate_stops r) ->
  (x < Size m)%nat /\ ~ In x (vehicle_to_start (manager m)).
Proof.
  intros Hv Hr Hx.
  destruct (feasible_inv Hf) as (_ & Hnd & _).
  split.
  - pose proof (walk_body _ _ _ _ Hr _ (intermediate_in_body _ _ Hx)) as He.
    unfold IsEnd in He. apply Nat.leb_gt in He. exact He.
  - intros Hin.
    destruct built_starts as (starts & _ & _ & Hmg & Hnv & _).
    destruct (In_nth _ _ 0%nat Hin) as (v' & Hv' & Hnth).
    rewrite Hmg, vehicle_to_start_length, <- Hnv in Hv'.
    fold (Start m v') in Hnth.
    destruct (route_three_stops Hv') as (r' & Hr' & _ & Hlen').
    destruct (walk_hd _ _ _ _ Hr') as [t' ->].
    assert (Hb' : In x (body_of m a v')).
    { unfold body_of. rewrite Hr'. destruct t' as [| y t']; [simpl in Hlen'; lia |].
      rewrite removelast_cons2. left. exact Hnth. }
    assert (Hb : In x (body_of m a v)).
    { unfold body_of. rewrite Hr. now apply intermediate_in_body. }
    assert (v = v').
    { apply NoDup_flat_map_disjoint
        with (f := body_of m a) (l := seq 0 (vehicles m)) (x := x);
        auto using seq_NoDup; apply in_seq; lia. }
    subst v'. rewrite Hr in Hr'. injection Hr' as ->.
    assert (Hnb : NoDup (body_of m a v)).
    { apply NoDup_flat_map_each
        with (f := body_of m a) (l := seq 0 (vehicles m)); auto.
      apply in_seq; lia. }
    unfold body_of in Hnb. rewrite Hr in Hnb.
    unfold intermediate_stops in Hx.
    destruct t' as [| y t']; [simpl in Hlen'; lia |].
    rewrite removelast_cons2 in Hnb, Hx. simpl tl in Hx.
    apply NoDup_cons_iff in Hnb as [Hnotin _].
    rewrite Hnth in Hnotin. contradiction.
Qed.

(** Such a stop stands for a location at which no vehicle is based. *)
Lemma intermediate_by_role v r x :
  (v < vehicles m)%nat -> route m a v = Some r ->
  In x (intermediate_stops r) ->
  In (IndexToNode (manager m) x) (customers_by_role cfg).
Proof.
  intros Hv Hr Hx.
  destruct (@intermediate_inner v r x Hv Hr Hx) as [Hlt Hns].
  destruct built_starts as (starts & _ & Hso & Hmg & _ & _).
  unfold Size in Hlt. rewrite Hmg in *.
  destruct (@inner_index_node _ _ _ _ _ Hlt Hns) as (_ & _ & Hn & Hnot & _).
  unfold customers_by_role. apply filter_In. split.
  - apply in_seq. lia.
  - unfold is_base. rewrite Hso. apply negb_true_iff, mem_false. exact Hnot.
Qed.

End FeasibleAssignment.

(** When the names agree with the roles, a location at which no vehicle is
    based is not named as a depot. *)
Lemma by_role_by_name node :
  depots_have_vehicles cfg = true ->
  In node (customers_by_role cfg) -> In node (customers_by_name cfg).
Proof.
  intros Hdep Hrole.
  unfold customers_by_role in Hrole. apply filter_In in Hrole as [Hin Hnb].
  unfold customers_by_name. apply filter_In. split; [assumption |].
  apply negb_true_iff. destruct (named_depot cfg node) eqn:Hnamed; [| reflexivity].
  exfalso. apply negb_true_iff, mem_false in Hnb. apply Hnb. clear Hnb.
  apply in_seq in Hin. destruct Hin as [_ Hin]. simpl in Hin.
  destruct built_starts as (starts & Hse & Hso & _).
  rewrite Hso.
  unfold depots_have_vehicles in Hdep. rewrite forallb_forall in Hdep.
  unfold named_depot in Hnamed.
  set (name := nth node (node_names cfg) "") in *.
  assert (Hname : In name (node_names cfg)).
  { apply nth_In. now rewrite <- n_node_names. }
  specialize (Hdep name Hname). rewrite Hnamed in Hdep. simpl in Hdep.
  destruct (dict_get (vehicles_per_depot cfg) name) as [cnt |] eqn:Hcnt;
    [| discriminate].
  apply Z.ltb_lt in Hdep.
  destruct (dict_get (index_of cfg) name) as [idx |] eqn:Hidx.
  - destruct (index_of_Some cfg name Hidx) as [Hlt Hnth].
    assert (idx = node).
    { apply (proj1 (NoDup_nth (node_names cfg) "") (node_names_NoDup cfg));
        rewrite <- ?n_node_names; assumption. }
    subst idx.
    destruct (starts_ends_Ok cfg Hse) as (_ & _ & Hin' & _).
    now apply (Hin' name cnt node).
  - apply index_of_None in Hidx. contradiction.
Qed.

End BuiltModel.

Section Counting.

Lemma filter_all {A} (p : A -> bool) l :
  (forall x, In x l -> p x = true) -> filter p l = l.
Proof.
  induction l as [| x l IH]; simpl; intros H; [reflexivity |].
  rewrite (H x) by now left. f_equal. apply IH. intros y Hy. apply H. now right.
Qed.

Lemma filter_tl_length {A} (p : A -> bool) l :
  (List.length (filter p (tl l)) <= List.length (filter p l))%nat.
Proof. destruct l as [| x l]; simpl; [lia |]. destruct (p x); simpl; lia. Qed.

Lemma second_stop_intermediate r :
  (3 <= List.length r)%nat -> In (nth 1 r 0%nat) (intermediate_stops r).
Proof.
  destruct r as [| x [| y [| z t]]]; simpl; lia.
Qed.

Lemma model_of_Ok cfg se :
  starts_ends cfg = Ok se -> build_model cfg = Ok (model_of cfg).
Proof.
  destruct se as [starts ends]. intros Hse.
  destruct (build_model_succeeds cfg Hse) as [m Hm].
  unfold model_of. now rewrite Hm.
Qed.

Lemma checked_solver_sound routes : sound (checked_solver routes).
Proof.
  intros m a. unfold checked_solver.
  destruct (feasibleb m (routes_assignment m routes)) eqn:Hf; [| discriminate].
  intros [= <-]. exact Hf.
Qed.

Variable cfg : Config.
Variable m : RoutingModel.
Hypothesis Hm : build_model cfg = Ok m.

(** Distinct vehicles call at distinct locations, none of them a base: with
    fewer such locations than vehicles nothing satisfies the model. *)
Lemma few_customers_infeasible :
  (List.length (customers_by_role cfg) < vehicles m)%nat ->
  forall a, ~ feasible m a.
Proof.
  intros Hfew a Hf.
  pose (stop := fun v => match route m a v with
                         | Some r => nth 1 r 0%nat
                         | None => 0%nat
                         end).
  assert (Hstop : forall v, (v < vehicles m)%nat ->
            exists r, route m a v = Some r /\
                      In (stop v) (intermediate_stops r)).
  { intros v Hv.
    destruct (@route_three_stops cfg m Hm a Hf v Hv) as (r & Hr & _ & Hlen).
    exists r. split; [assumption |]. unfold stop. rewrite Hr.
    now apply second_stop_intermediate. }
  pose (L := map (fun v => IndexToNode (manager m) (stop v))
                 (seq 0 (vehicles m))).
  assert (Hincl : incl L (customers_by_role cfg)).
  { intros node Hnode. apply in_map_iff in Hnode as (v & <- & Hv).
    apply in_seq in Hv. destruct (Hstop v) as (r & Hr & Hin); [lia |].
    apply (@intermediate_by_role cfg m Hm a Hf v r (stop v));
      [lia | assumption | assumption]. }
  assert (Hnd : NoDup L).
  { apply NoDup_map_NoDup_ForallPairs; [| apply seq_NoDup].
    intros v v' Hv Hv' Heq. apply in_seq in Hv, Hv'.
    destruct (Hstop v) as (r & Hr & Hin); [lia |].
    destruct (Hstop v') as (r' & Hr' & Hin'); [lia |].
    assert (Hx : stop v = stop v').
    { destruct (@intermediate_inner cfg m Hm a Hf v r (stop v)) as [Hlt Hns];
        try assumption; [lia |].
      destruct (@intermediate_inner cfg m Hm a Hf v' r' (stop v'))
        as [Hlt' Hns']; try assumption; [lia |].
      destruct (built_starts cfg Hm) as (starts & _ & _ & Hmg & _).
      unfold Size in Hlt, Hlt'. rewrite Hmg in *.
      destruct (@inner_index_node _ _ _ _ _ Hlt Hns) as (H1 & H2 & _).
      destruct (@inner_index_node _ _ _ _ _ Hlt' Hns') as (H1' & H2' & _).
      rewrite H2, H2' in Heq.
      apply (proj1 (NoDup_nth _ 0%nat) (regular_NoDup (n cfg) starts starts));
        assumption. }
    destruct (feasible_inv Hf) as (_ & Hvis & _).
    apply NoDup_flat_map_disjoint
      with (f := body_of m a) (l := seq 0 (vehicles m)) (x := stop v);
      auto using seq_NoDup; try (apply in_seq; lia).
    - unfold body_of. rewrite Hr. now apply intermediate_in_body.
    - rewrite Hx. unfold body_of. rewrite Hr'. now apply intermediate_in_body. }
  pose proof (NoDup_incl_length Hnd Hincl) as Hle.
  unfold L in Hle. rewrite length_map, length_seq in Hle. lia.
Qed.

Lemma by_name_count_le :
  depots_have_vehicles cfg = true ->
  (List.length (customers_by_role cfg) <=
   List.length (customers_by_name cfg))%nat.
Proof.
  intros Hdep. apply NoDup_incl_length.
  - apply NoDup_filter, seq_NoDup.
  - intros node. now apply (@by_role_by_name cfg m Hm node).
Qed.

End Counting.

(* ------------------------------------------------------------------------- *)
(** ** The three dimensions *)
(* ------------------------------------------------------------------------- *)

(** C1.  The ArcCount dimension adds 1 per arc whatever the nodes, starts at
    zero, and has the upper bound 1000 for every vehicle.  The model holds no
    constraint when the dimension has been created; the loop that follows
    leaves the dimension as it is and adds, for every vehicle, the constraint
    that the cumulative value at the vehicle's end index is at least 2.  In
    every assignment that satisfies the model each route therefore has a stop
    between its start and its end, at a location where no vehicle is based,
    and, when every location named as a depot has a vehicle, at a location
    that is a customer by its name. *)
Theorem every_route_serves_a_customer :
  forall (cfg : Config) (m : RoutingModel),
    build_model cfg = Ok m ->
    (exists starts ends arc_dim,
        starts_ends cfg = Ok (starts, ends) /\
        GetDimensionOrDie (declare_model cfg starts ends) "ArcCount"
          = Some arc_dim /\
        solver_constraints (declare_model cfg starts ends) = [] /\
        add_min_visit (List.length starts) (declare_model cfg starts ends)
          = Ok m /\
        GetDimensionOrDie m "ArcCount" = Some arc_dim /\
        (forall i j, evaluator m (dim_evaluator arc_dim) i j = 1) /\
        dim_slack_max arc_dim = 0 /\
        dim_fix_start_cumul_to_zero arc_dim = true /\
        dim_capacities arc_dim = repeat 1000 (vehicles m) /\
        solver_constraints m =
          map (fun v => GreaterOrEqual (CumulVar arc_dim (End m v)) 2)
              (seq 0 (vehicles m))) /\
    (forall a, feasible m a ->
     forall v, (v < vehicles m)%nat ->
       exists r,
         route m a v = Some r /\
         hd 0%nat r = Start m v /\
         last r 0%nat = End m v /\
         intermediate_stops r <> [] /\
         (forall x, In x (intermediate_stops r) ->
                    In (IndexToNode (manager m) x) (customers_by_role cfg)) /\
         (depots_have_vehicles cfg = true ->
          forall x, In x (intermediate_stops r) ->
                    In (IndexToNode (manager m) x) (customers_by_name cfg))).
Proof.
  intros cfg m Hm. split.
  - destruct (build_model_Ok cfg Hm)
      as (starts & ends & Hse & Hmg & Ht & _ & Hd & Hc).
    assert (Hnv : vehicles m = List.length starts).
    { unfold vehicles. now rewrite Hmg. }
    exists starts, ends,
      {| dim_name := "ArcCount"; dim_evaluator := 2; dim_slack_max := 0;
         dim_capacities := repeat 1000 (List.length starts);
         dim_fix_start_cumul_to_zero := true |}.
    repeat split.
    + exact Hse.
    + unfold build_model in Hm. rewrite Hse in Hm. exact Hm.
    + unfold GetDimensionOrDie. rewrite Hd. reflexivity.
    + intros i j. unfold evaluator. rewrite Ht. reflexivity.
    + simpl. now rewrite Hnv.
    + rewrite Hc, Hnv. reflexivity.
  - intros a Hf v Hv.
    destruct (@route_three_stops cfg m Hm a Hf v Hv) as (r & Hr & Hlast & Hlen).
    exists r. repeat split; try assumption.
    + destruct (walk_hd _ _ _ _ Hr) as [t ->]. reflexivity.
    + intros Hnil. pose proof (second_stop_intermediate r Hlen) as Hin.
      rewrite Hnil in Hin. destruct Hin.
    + intros x Hx.
      now apply (@intermediate_by_role cfg m Hm a Hf v r x).
    + intros Hdep x Hx.
      apply (@by_role_by_name cfg m Hm _ Hdep).
      now apply (@intermediate_by_role cfg m Hm a Hf v r x).
Qed.

(** C5.  The transit of the Capacity dimension is 1 at a node not named as a
    depot and 0 at a node named as a depot; the cumulative value starts at
    zero and is at most 4 for every vehicle.  In every assignment that
    satisfies the model a vehicle has at most 4 stops that are customers by
    name, and, when every location named as a depot has a vehicle, at most 4
    stops between its start and its end. *)
Theorem capacity_bounds_customers :
  forall (cfg : Config) (m : RoutingModel),
    build_model cfg = Ok m ->
    (exists cap_dim,
        GetDimensionOrDie m "Capacity" = Some cap_dim /\
        (forall i j,
            evaluator m (dim_evaluator cap_dim) i j =
            if named_depot cfg (IndexToNode (manager m) i) then 0 else 1) /\
        dim_slack_max cap_dim = 0 /\
        dim_fix_start_cumul_to_zero cap_dim = true /\
        dim_capacities cap_dim = repeat 4 (vehicles m)) /\
    (forall a, feasible m a ->
     forall v, (v < vehicles m)%nat ->
       exists r,
         route m a v = Some r /\
         cumul a {| dim_name := "Capacity"; dim_evaluator := 1;
                    dim_slack_max := 0;
                    dim_capacities := repeat 4 (vehicles m);
                    dim_fix_start_cumul_to_zero := true |} (End m v) =
           Z.of_nat (List.length (counted_stops cfg m r)) /\
         (List.length (counted_stops cfg m r) <= 4)%nat /\
         (depots_have_vehicles cfg = true ->
          (List.length (intermediate_stops r) <= 4)%nat)).
Proof.
  intros cfg m Hm.
  pose proof (built_dimensions cfg Hm) as Hd.
  destruct (built_evaluators cfg Hm) as (_ & He & _).
  set (d := {| dim_name := "Capacity"; dim_evaluator := 1; dim_slack_max := 0;
               dim_capacities := repeat 4 (vehicles m);
               dim_fix_start_cumul_to_zero := true |}).
  split.
  - exists d. repeat split.
    + unfold GetDimensionOrDie. rewrite Hd. reflexivity.
    + exact He.
  - intros a Hf v Hv.
    destruct (@route_three_stops cfg m Hm a Hf v Hv) as (r & Hr & _ & _).
    exists r. split; [assumption |].
    assert (Hin : In d (dimensions m)) by (rewrite Hd; now left).
    destruct (end_cumul d Hf Hin Hv eq_refl eq_refl Hr) as [Hc Hb].
    assert (Hcount : cumul a d (End m v) =
                     Z.of_nat (List.length (counted_stops cfg m r))).
    { rewrite Hc.
      rewrite (path_cost_ext _
                 (fun i _ => if named_depot cfg (IndexToNode (manager m) i)
                             then 0 else 1) r) by exact He.
      rewrite path_cost_unary.
      apply (sum_indicator
               (fun i => named_depot cfg (IndexToNode (manager m) i))). }
    assert (Hle : (List.length (counted_stops cfg m r) <= 4)%nat).
    { simpl dim_capacities in Hb. rewrite nth_repeat_lt in Hb by assumption.
      rewrite Hcount in Hb. lia. }
    repeat split; try assumption.
    intros Hdep.
    assert (Hall : filter (fun i => negb (named_depot cfg
                                            (IndexToNode (manager m) i)))
                          (intermediate_stops r) = intermediate_stops r).
    { apply filter_all. intros x Hx.
      pose proof (@intermediate_by_role cfg m Hm a Hf v r x Hv Hr Hx) as Hrole.
      apply (@by_role_by_name cfg m Hm _ Hdep) in Hrole.
      unfold customers_by_name in Hrole. now apply filter_In in Hrole. }
    rewrite <- Hall. unfold intermediate_stops.
    etransitivity; [apply filter_tl_length | exact Hle].
Qed.

(** C6.  The Distance dimension reads the evaluator that is also the arc cost
    of every vehicle, the entry of the distance matrix for the two nodes of
    the arc; it has no slack, starts at zero and is at most 120 for every
    vehicle.  In every assignment that satisfies the model its value at the
    end of a route is the distance of the route, which is therefore at most
    120. *)
Theorem distance_bounds_route :
  forall (cfg : Config) (m : RoutingModel),
    build_model cfg = Ok m ->
    (exists dist_dim,
        GetDimensionOrDie m "Distance" = Some dist_dim /\
        arc_cost_evaluator m = Some (dim_evaluator dist_dim) /\
        (forall i j v,
            evaluator m (dim_evaluator dist_dim) i j =
            GetArcCostForVehicle m i j v) /\
        (forall i j,
            evaluator m (dim_evaluator dist_dim) i j =
            nth (IndexToNode (manager m) j)
                (nth (IndexToNode (manager m) i) (distance_matrix cfg) []) 0) /\
        dim_slack_max dist_dim = 0 /\
        dim_fix_start_cumul_to_zero dist_dim = true /\
        dim_capacities dist_dim = repeat 120 (vehicles m)) /\
    (forall a, feasible m a ->
     forall v, (v < vehicles m)%nat ->
       exists r,
         route m a v = Some r /\
         cumul a {| dim_name := "Distance"; dim_evaluator := 0;
                    dim_slack_max := 0;
                    dim_capacities := repeat 120 (vehicles m);
                    dim_fix_start_cumul_to_zero := true |} (End m v) =
           route_distance m v r /\
         0 <= route_distance m v r <= 120).
Proof.
  intros cfg m Hm.
  pose proof (built_dimensions cfg Hm) as Hd.
  destruct (built_evaluators cfg Hm) as (He & _ & _ & Hcost).
  set (d := {| dim_name := "Distance"; dim_evaluator := 0; dim_slack_max := 0;
               dim_capacities := repeat 120 (vehicles m);
               dim_fix_start_cumul_to_zero := true |}).
  split.
  - exists d. repeat split.
    + unfold GetDimensionOrDie. rewrite Hd. reflexivity.
    + now destruct (build_model_Ok cfg Hm) as (? & ? & _ & _ & _ & -> & _).
    + intros i j v. now rewrite Hcost.
    + exact He.
  - intros a Hf v Hv.
    destruct (@route_three_stops cfg m Hm a Hf v Hv) as (r & Hr & _ & _).
    exists r. split; [assumption |].
    assert (Hin : In d (dimensions m)) by (rewrite Hd; right; now left).
    destruct (end_cumul d Hf Hin Hv eq_refl eq_refl Hr) as [Hc Hb].
    assert (Hdist : cumul a d (End m v) = route_distance m v r).
    { rewrite Hc. unfold route_distance. apply path_cost_ext.
      intros i j. now rewrite Hcost. }
    split; [assumption |].
    simpl dim_capacities in Hb. rewrite nth_repeat_lt in Hb by assumption.
    rewrite Hdist in Hb. exact Hb.
Qed.

(* ------------------------------------------------------------------------- *)
(** ** Runs without a solution *)
(* ------------------------------------------------------------------------- *)

Section NoSolution.

Variable cfg : Config.
Variable m : RoutingModel.

Lemma plot_loop_no_solution fuel index acc :
  exists res, plot_loop cfg m None fuel index acc = Some res.
Proof.
  destruct fuel; simpl;
    destruct (IsEnd m index); eauto;
    destruct (plot_stop cfg m index acc); eauto.
Qed.

Lemma plot_vehicle_no_solution fuel v :
  exists res, plot_vehicle cfg m None fuel v = Some res.
Proof.
  unfold plot_vehicle.
  destruct (plot_loop_no_solution fuel (Start m v) ([], [], []))
    as [[[index acc] | e] ->]; eauto.
  destruct (plot_stop cfg m index acc) as [[[xs ys] labels] | e]; eauto.
Qed.

Lemma plot_vehicles_no_solution fuel vs :
  exists res, plot_vehicles cfg m None fuel vs = Some res.
Proof.
  induction vs as [| v vs [[calls finished] IH]]; simpl; eauto.
  destruct (plot_vehicle_no_solution fuel v) as [[calls' | e] ->]; eauto.
  rewrite IH. eauto.
Qed.

(** Without a solution the plotting block always comes to an end. *)
Lemma plot_block_no_solution fuel matplotlib :
  exists plot, plot_block cfg m None fuel matplotlib = Some plot.
Proof.
  unfold plot_block. destruct matplotlib; eauto.
  destruct (plot_vehicles_no_solution fuel (seq 0 (vehicles m)))
    as [[calls [|]] ->]; eauto.
Qed.

Hypothesis Hm : build_model cfg = Ok m.

(** With plotting installed and at least one vehicle, the block is entered:
    the figure is created, the walk of the first truck begins, and the block
    is left at [solution.Value] by the exception. *)
Lemma plot_block_no_solution_entered fuel :
  (1 <= vehicles m)%nat ->
  plot_block cfg m None fuel true = Some [plt_figure].
Proof.
  intros Hv. unfold plot_block.
  destruct (vehicles m) as [| k] eqn:Hk; [lia |].
  simpl seq. simpl plot_vehicles.
  assert (Hs : IsEnd m (Start m 0) = false).
  { unfold IsEnd. apply Nat.leb_gt.
    apply (@start_lt_Size cfg m Hm 0%nat). lia. }
  assert (Hp : exists e, plot_vehicle cfg m None fuel 0 = Some (Raise e)).
  { unfold plot_vehicle.
    destruct fuel; simpl; rewrite Hs;
      destruct (plot_stop cfg m (Start m 0) ([], [], [])); eauto. }
  destruct Hp as [e ->]. reflexivity.
Qed.

Lemma program_no_solution fuel matplotlib solve :
  solve m = None ->
  exists plot,
    plot_block cfg m None fuel matplotlib = Some plot /\
    program cfg fuel matplotlib solve = Completed [no_solution_line] plot.
Proof.
  intros Hs.
  destruct (plot_block_no_solution fuel matplotlib) as [plot Hp].
  exists plot. split; [assumption |].
  unfold program. rewrite Hm, Hs. simpl report. cbv iota beta.
  now rewrite Hp.
Qed.

End NoSolution.

(** C3.  When there are fewer customers than vehicles (fewer locations where
    no vehicle is based or, every location named as a depot having a
    vehicle, fewer locations not named as a depot), no assignment satisfies
    the model; a search that only returns assignments satisfying the model
    returns none, and the script prints the diagnostic and no route. *)
Theorem too_few_customers_no_solution :
  forall (cfg : Config) (m : RoutingModel),
    build_model cfg = Ok m ->
    ((List.length (customers_by_role cfg) < vehicles m)%nat \/
     (depots_have_vehicles cfg = true /\
      (List.length (customers_by_name cfg) < vehicles m)%nat)) ->
    (forall a, ~ feasible m a) /\
    (forall solve, sound solve ->
       solve m = None /\
       forall fuel matplotlib,
       exists plot,
         program cfg fuel matplotlib solve = Completed [no_solution_line] plot).
Proof.
  intros cfg m Hm Hfew.
  assert (Hrole : (List.length (customers_by_role cfg) < vehicles m)%nat).
  { destruct Hfew as [H | [Hdep H]]; [assumption |].
    pose proof (@by_name_count_le cfg m Hm Hdep). lia. }
  pose proof (@few_customers_infeasible cfg m Hm Hrole) as Hinf.
  split; [exact Hinf |].
  intros solve Hsound.
  assert (Hnone : solve m = None).
  { destruct (solve m) as [a |] eqn:Hs; [| reflexivity].
    exfalso. apply (Hinf a). now apply Hsound. }
  split; [exact Hnone |].
  intros fuel matplotlib.
  destruct (@program_no_solution cfg m Hm fuel matplotlib solve Hnone)
    as (plot & _ & Hp).
  eauto.
Qed.

(** C9.  When no assignment satisfies the model, a search that only returns
    assignments satisfying the model returns none; the run then ends
    normally, neither with an exception nor without end, and what it has
    printed is the diagnostic line alone: no route is listed. *)
Theorem infeasible_model_reports_no_solution :
  forall (cfg : Config) (m : RoutingModel)
         (solve : RoutingModel -> option Assignment),
    build_model cfg = Ok m ->
    sound solve ->
    (forall a, ~ feasible m a) ->
    solve m = None /\
    forall fuel matplotlib,
    exists plot,
      program cfg fuel matplotlib solve = Completed [no_solution_line] plot.
Proof.
  intros cfg m solve Hm Hsound Hinf.
  assert (Hnone : solve m = None).
  { destruct (solve m) as [a |] eqn:Hs; [| reflexivity].
    exfalso. apply (Hinf a). now apply Hsound. }
  split; [exact Hnone |].
  intros fuel matplotlib.
  destruct (@program_no_solution cfg m Hm fuel matplotlib solve Hnone)
    as (plot & _ & Hp).
  eauto.
Qed.

(** C7.  The plotting block does not test [solution].  When the search
    returns nothing, plotting is installed and there is a vehicle, the block
    is entered all the same: [plt.figure] is called and the walk of the
    first truck starts; the block ends at the first [solution.Value], whose
    exception it swallows.  No route is plotted and nothing is shown. *)
Theorem plotting_entered_without_solution :
  forall (cfg : Config) (m : RoutingModel)
         (solve : RoutingModel -> option Assignment) (fuel : nat),
    build_model cfg = Ok m ->
    (1 <= vehicles m)%nat ->
    solve m = None ->
    program cfg fuel true solve = Completed [no_solution_line] [plt_figure].
Proof.
  intros cfg m solve fuel Hm Hv Hnone.
  destruct (@program_no_solution cfg m Hm fuel true solve Hnone)
    as (plot & Hp & Hprog).
  rewrite (@plot_block_no_solution_entered cfg m Hm fuel Hv) in Hp.
  injection Hp as <-. exact Hprog.
Qed.

(* ------------------------------------------------------------------------- *)
(** ** Solution extractor *)
(* ------------------------------------------------------------------------- *)

Section Extractor.

Variable cfg : Config.
Variable m : RoutingModel.
Variable a : Assignment.

Lemma walk_arcs fuel :
  forall i r, walk m a fuel i = Some r ->
              forall x y, In (x, y) (arcs r) -> y = Z.to_nat (a (NextVar x)).
Proof.
  induction fuel as [| fuel IH]; intros i r; rewrite walk_eq;
    destruct (IsEnd m i) eqn:He; try discriminate;
    try (intros [= <-] x y []).
  destruct (walk m a fuel (next a i)) as [t |] eqn:Hw; [| discriminate].
  intros [= <-] x y. destruct (walk_hd _ _ _ _ Hw) as [t' ->].
  rewrite arcs_cons2. intros [[= <- <-] | Hin]; [reflexivity |].
  now apply (IH _ _ Hw).
Qed.

Lemma route_loop_eq fuel v index route_nodes route_distance :
  route_loop cfg m a fuel v index route_nodes route_distance =
  if IsEnd m index then Some (index, route_nodes, route_distance)
  else match fuel with
       | O => None
       | S fuel' =>
           route_loop cfg m a fuel' v (Z.to_nat (a (NextVar index)))
                      (route_nodes ++ [name_at cfg m index])
                      (route_distance +
                       GetArcCostForVehicle m index
                         (Z.to_nat (a (NextVar index))) v)
       end.
Proof. destruct fuel; reflexivity. Qed.

(** The loop of [print_solution] performs the walk, collecting the names of
    the stops before the end and adding up the arc costs. *)
Lemma route_loop_walk fuel v :
  forall index names dist,
    route_loop cfg m a fuel v index names dist =
    match walk m a fuel index with
    | None => None
    | Some r =>
        Some (last r 0%nat,
              names ++ map (name_at cfg m) (removelast r),
              dist + route_distance m v r)
    end.
Proof.
  induction fuel as [| fuel IH]; intros index names dist;
    rewrite route_loop_eq, walk_eq; destruct (IsEnd m index) eqn:He;
    try reflexivity;
    try (simpl; rewrite app_nil_r; unfold route_distance;
         rewrite path_cost_single, Z.add_0_r; reflexivity).
  rewrite IH. fold (next a index).
  destruct (walk m a fuel (next a index)) as [t |] eqn:Hw; [| reflexivity].
  destruct (walk_hd _ _ _ _ Hw) as [t' ->]. simpl option_map. cbv iota beta.
  change (last (index :: next a index :: t') 0%nat)
    with (last (next a index :: t') 0%nat).
  rewrite removelast_cons2. simpl map. rewrite <- app_assoc. simpl app.
  unfold route_distance. rewrite (path_cost_cons2 _ index).
  now rewrite Z.add_assoc.
Qed.

Lemma map_removelast_last {B} (f : nat -> B) r :
  r <> [] -> map f (removelast r) ++ [f (last r 0%nat)] = map f r.
Proof.
  intros H. transitivity (map f (removelast r ++ [last r 0%nat])).
  - now rewrite map_app.
  - f_equal. symmetry. now apply app_removelast_last.
Qed.

Lemma print_route_walk fuel v total :
  print_route cfg m a fuel v total =
  match walk m a fuel (Start m v) with
  | None => None
  | Some r =>
      Some (total + route_distance m v r,
            TruckLine v (route_distance m v r) (map (name_at cfg m) r))
  end.
Proof.
  unfold print_route. rewrite route_loop_walk.
  destruct (walk m a fuel (Start m v)) as [r |] eqn:Hw; [| reflexivity].
  assert (Hne : r <> []).
  { destruct (walk_hd _ _ _ _ Hw) as [t ->]. discriminate. }
  cbv iota beta. rewrite Z.add_0_l.
  change ([] ++ map (name_at cfg m) (removelast r))
    with (map (name_at cfg m) (removelast r)).
  now rewrite map_removelast_last.
Qed.

Lemma print_routes_walks fuel vs :
  forall total,
    print_routes cfg m a fuel vs total =
    match walks_of m a fuel vs with
    | None => None
    | Some rs =>
        Some (total + total_distance_of m vs rs, truck_lines cfg m vs rs)
    end.
Proof.
  induction vs as [| v vs IH]; intros total.
  - simpl. unfold total_distance_of. simpl. now rewrite Z.add_0_r.
  - simpl print_routes. rewrite print_route_walk. simpl walks_of.
    destruct (walk m a fuel (Start m v)) as [r |]; [| reflexivity].
    rewrite IH.
    destruct (walks_of m a fuel vs) as [rs |]; [| reflexivity].
    unfold total_distance_of, truck_lines. simpl.
    now rewrite Z.add_assoc.
Qed.

Lemma walks_of_Forall2 fuel vs :
  forall rs, walks_of m a fuel vs = Some rs <->
             Forall2 (fun v r => walk m a fuel (Start m v) = Some r) vs rs.
Proof.
  induction vs as [| v vs IH]; intros rs; simpl.
  - split.
    + intros [= <-]. constructor.
    + intros H. inversion H. reflexivity.
  - destruct (walk m a fuel (Start m v)) as [r |] eqn:Hw.
    + destruct (walks_of m a fuel vs) as [rs' |] eqn:Hws.
      * split.
        -- intros [= <-]. constructor; [assumption | now apply IH].
        -- intros H. inversion H as [| ? r0 ? rs0 Hr0 Hrest]; subst.
           apply IH in Hrest. congruence.
      * split; [discriminate |].
        intros H. inversion H as [| ? r0 ? rs0 Hr0 Hrest]; subst.
        apply IH in Hrest. congruence.
    + split; [discriminate |].
      intros H. inversion H as [| ? r0 ? rs0 Hr0 Hrest]; subst. congruence.
Qed.

(** For an assignment that satisfies the model every walk ends within
    [Size m] steps. *)
Lemma walks_of_feasible fuel vs :
  feasible m a -> (Size m <= fuel)%nat ->
  (forall v, In v vs -> (v < vehicles m)%nat) ->
  exists rs, walks_of m a fuel vs = Some rs /\
             Forall2 (fun v r => route m a v = Some r /\
                                 last r 0%nat = End m v) vs rs.
Proof.
  intros Hf Hfuel. destruct (feasible_inv Hf) as (Hroute & _).
  induction vs as [| v vs IH]; intros Hvs; simpl.
  - exists []. split; [reflexivity | constructor].
  - destruct IH as (rs & Hrs & Hall); [intros; apply Hvs; now right |].
    destruct (Hroute v) as (r & Hr & Hlast); [apply Hvs; now left |].
    pose proof Hr as Hw. unfold route in Hw.
    rewrite (@walk_mono m a _ fuel _ _ Hw Hfuel), Hrs.
    exists (r :: rs). split; [reflexivity | constructor; auto].
Qed.

End Extractor.

(** C2.  For each vehicle [print_solution] walks from the vehicle's start
    index along the successors of the solution up to the first end index.
    The line of a truck carries the names of the stops of that walk and, as
    its distance, the sum of the arc costs (the entries of the distance
    matrix) over the consecutive stops of the walk; the total is the sum of
    the distances of the trucks.  For an assignment that satisfies the model
    every walk ends, at the end index of its vehicle, so the report is
    produced. *)
Theorem print_solution_reports_walks :
  forall (cfg : Config) (m : RoutingModel) (a : Assignment),
    build_model cfg = Ok m ->
    (forall fuel,
        print_solution cfg m a fuel =
        match walks m a fuel with
        | None => None
        | Some rs =>
            Some (truck_lines cfg m (seq 0 (vehicles m)) rs ++
                  [TextLine "";
                   TotalLine (total_distance_of m (seq 0 (vehicles m)) rs)])
        end) /\
    (forall fuel rs,
        walks m a fuel = Some rs <->
        Forall2 (fun v r => walk m a fuel (Start m v) = Some r)
                (seq 0 (vehicles m)) rs) /\
    (forall fuel v r,
        walk m a fuel (Start m v) = Some r ->
        hd 0%nat r = Start m v /\
        IsEnd m (last r 0%nat) = true /\
        (forall x, In x (removelast r) -> IsEnd m x = false) /\
        (forall x y, In (x, y) (arcs r) -> y = Z.to_nat (a (NextVar x)))) /\
    (forall i j v,
        GetArcCostForVehicle m i j v =
        nth (IndexToNode (manager m) j)
            (nth (IndexToNode (manager m) i) (distance_matrix cfg) []) 0) /\
    (feasible m a ->
     forall fuel, (Size m <= fuel)%nat ->
       exists rs,
         walks m a fuel = Some rs /\
         Forall2 (fun v r => route m a v = Some r /\ last r 0%nat = End m v)
                 (seq 0 (vehicles m)) rs).
Proof.
  intros cfg m a Hm.
  split; [| split; [| split; [| split]]].
  - intros fuel. unfold print_solution, walks. rewrite print_routes_walks.
    destruct (walks_of m a fuel (seq 0 (vehicles m))); reflexivity.
  - intros fuel rs. apply walks_of_Forall2.
  - intros fuel v r H. repeat split.
    + destruct (walk_hd _ _ _ _ H) as [t ->]. reflexivity.
    + now apply (walk_last _ _ _ _ H).
    + now apply (walk_body _ _ _ _ H).
    + intros x y. now apply (@walk_arcs m a fuel _ _ H).
  - intros i j v. destruct (built_evaluators cfg Hm) as (He & _ & _ & Hc).
    now rewrite Hc, He.
  - intros Hf fuel Hfuel. apply walks_of_feasible; try assumption.
    intros v Hv. apply in_seq in Hv. lia.
Qed.

(* ------------------------------------------------------------------------- *)
(** ** Depots and customers *)
(* ------------------------------------------------------------------------- *)

(** C10.  The demand of the Capacity dimension at an index is [demand_cb]: it
    is 0 exactly when the name of the node starts with "Depot" and 1 exactly
    when it does not.  Nothing but the name enters: a scenario has no tag
    that tells depots from customers. *)
Theorem depot_is_decided_by_name_prefix :
  forall (cfg : Config) (m : RoutingModel),
    build_model cfg = Ok m ->
    exists cap_dim,
      GetDimensionOrDie m "Capacity" = Some cap_dim /\
      forall index to_index,
        evaluator m (dim_evaluator cap_dim) index to_index =
          demand_cb (node_names cfg) (manager m) index /\
        (evaluator m (dim_evaluator cap_dim) index to_index = 0 <->
         startswith (name_at cfg m index) "Depot" = true) /\
        (evaluator m (dim_evaluator cap_dim) index to_index = 1 <->
         startswith (name_at cfg m index) "Depot" = false).
Proof.
  intros cfg m Hm.
  pose proof (built_dimensions cfg Hm) as Hd.
  destruct (built_evaluators cfg Hm) as (_ & He & _).
  eexists. split.
  - unfold GetDimensionOrDie. rewrite Hd. reflexivity.
  - intros index to_index. simpl dim_evaluator. rewrite He.
    unfold demand_cb, named_depot, name_at.
    destruct (startswith (nth (IndexToNode (manager m) index)
                              (node_names cfg) "") "Depot");
      repeat split; congruence.
Qed.

(** A customer named "Depot Road Shop" is not counted: the truck serves five
    locations under a capacity of four. *)
Example depot_named_customer_exempt :
  let m := model_of depot_named_customer_scenario in
  let a := routes_assignment m depot_named_customer_routes in
  build_model depot_named_customer_scenario = Ok m /\
  feasible m a /\
  route m a 0 = Some [0; 1; 2; 4; 3; 5; 6]%nat /\
  map (name_at depot_named_customer_scenario m)
      (intermediate_stops [0; 1; 2; 4; 3; 5; 6]%nat) =
    ["Depot Road Shop"; "C1"; "C3"; "C2"; "C4"] /\
  a (CumulVarOf "Capacity" 6) = 4.
Proof.
  cbv zeta. split.
  - apply model_of_Ok with (se := ([0%nat], [0%nat])). vm_compute. reflexivity.
  - split; [vm_compute; reflexivity |].
    split; [vm_compute; reflexivity |].
    split; vm_compute; reflexivity.
Qed.

(* ------------------------------------------------------------------------- *)
(** ** The statements at concrete scenarios *)
(* ------------------------------------------------------------------------- *)

Lemma scenario_model_Ok : build_model scenario = Ok (model_of scenario).
Proof.
  apply model_of_Ok with (se := ([0; 0; 1; 1]%nat, [0; 0; 1; 1]%nat)).
  vm_compute. reflexivity.
Qed.

Lemma balanced_assignment_feasible :
  feasible (model_of scenario) balanced_assignment.
Proof. vm_compute. reflexivity. Qed.

Lemma lone_depot_model_Ok :
  build_model lone_depot_scenario = Ok (model_of lone_depot_scenario).
Proof.
  apply model_of_Ok with (se := ([0%nat], [0%nat])). vm_compute. reflexivity.
Qed.

Lemma every_route_serves_a_customer_witness :
  build_model scenario = Ok (model_of scenario) /\
  feasible (model_of scenario) balanced_assignment /\
  (0 < vehicles (model_of scenario))%nat /\
  depots_have_vehicles scenario = true /\
  exists r,
    route (model_of scenario) balanced_assignment 0 = Some r /\
    intermediate_stops r <> [] /\
    forall x, In x (intermediate_stops r) ->
              In (IndexToNode (manager (model_of scenario)) x)
                 (customers_by_name scenario).
Proof.
  assert (Hv : (0 < vehicles (model_of scenario))%nat) by (vm_compute; lia).
  assert (Hdep : depots_have_vehicles scenario = true)
    by (vm_compute; reflexivity).
  split; [exact scenario_model_Ok |].
  split; [exact balanced_assignment_feasible |].
  split; [exact Hv |].
  split; [exact Hdep |].
  destruct (every_route_serves_a_customer scenario scenario_model_Ok)
    as [_ Hroutes].
  destruct (Hroutes _ balanced_assignment_feasible 0%nat Hv)
    as (r & Hr & _ & _ & Hne & _ & Hname).
  exists r.
  split; [exact Hr |]. split; [exact Hne | exact (Hname Hdep)].
Defined.

Lemma capacity_bounds_customers_witness :
  build_model scenario = Ok (model_of scenario) /\
  feasible (model_of scenario) balanced_assignment /\
  (0 < vehicles (model_of scenario))%nat /\
  depots_have_vehicles scenario = true /\
  exists r,
    route (model_of scenario) balanced_assignment 0 = Some r /\
    (List.length (counted_stops scenario (model_of scenario) r) <= 4)%nat /\
    (List.length (intermediate_stops r) <= 4)%nat.
Proof.
  assert (Hv : (0 < vehicles (model_of scenario))%nat) by (vm_compute; lia).
  assert (Hdep : depots_have_vehicles scenario = true)
    by (vm_compute; reflexivity).
  split; [exact scenario_model_Ok |].
  split; [exact balanced_assignment_feasible |].
  split; [exact Hv |].
  split; [exact Hdep |].
  destruct (capacity_bounds_customers scenario scenario_model_Ok)
    as [_ Hroutes].
  destruct (Hroutes _ balanced_assignment_feasible 0%nat Hv)
    as (r & Hr & _ & Hle & Hstops).
  exists r.
  split; [exact Hr |]. split; [exact Hle | exact (Hstops Hdep)].
Defined.

Lemma distance_bounds_route_witness :
  build_model scenario = Ok (model_of scenario) /\
  feasible (model_of scenario) balanced_assignment /\
  (0 < vehicles (model_of scenario))%nat /\
  exists r,
    route (model_of scenario) balanced_assignment 0 = Some r /\
    0 <= route_distance (model_of scenario) 0 r <= 120.
Proof.
  assert (Hv : (0 < vehicles (model_of scenario))%nat) by (vm_compute; lia).
  split; [exact scenario_model_Ok |].
  split; [exact balanced_assignment_feasible |].
  split; [exact Hv |].
  destruct (distance_bounds_route scenario scenario_model_Ok) as [_ Hroutes].
  destruct (Hroutes _ balanced_assignment_feasible 0%nat Hv)
    as (r & Hr & _ & Hle).
  exists r. split; [exact Hr | exact Hle].
Defined.

Lemma depot_is_decided_by_name_prefix_witness :
  build_model scenario = Ok (model_of scenario) /\
  exists cap_dim,
    GetDimensionOrDie (model_of scenario) "Capacity" = Some cap_dim /\
    evaluator (model_of scenario) (dim_evaluator cap_dim) 0%nat 2%nat =
      demand_cb (node_names scenario) (manager (model_of scenario)) 0%nat.
Proof.
  split; [exact scenario_model_Ok |].
  destruct (depot_is_decided_by_name_prefix scenario scenario_model_Ok)
    as (cap_dim & Hget & Hdemand).
  exists cap_dim. split; [exact Hget | exact (proj1 (Hdemand 0%nat 2%nat))].
Defined.

Lemma print_solution_reports_walks_witness :
  build_model scenario = Ok (model_of scenario) /\
  feasible (model_of scenario) balanced_assignment /\
  (Size (model_of scenario) <= 16)%nat /\
  exists rs,
    walks (model_of scenario) balanced_assignment 16 = Some rs /\
    print_solution scenario (model_of scenario) balanced_assignment 16 =
      Some (truck_lines scenario (model_of scenario)
                        (seq 0 (vehicles (model_of scenario))) rs ++
            [TextLine "";
             TotalLine (total_distance_of
                          (model_of scenario)
                          (seq 0 (vehicles (model_of scenario))) rs)]).
Proof.
  assert (Hs : (Size (model_of scenario) <= 16)%nat) by (vm_compute; lia).
  split; [exact scenario_model_Ok |].
  split; [exact balanced_assignment_feasible |].
  split; [exact Hs |].
  destruct (print_solution_reports_walks
              scenario balanced_assignment scenario_model_Ok)
    as (Hprint & _ & _ & _ & Hends).
  destruct (Hends balanced_assignment_feasible 16%nat Hs) as (rs & Hrs & _).
  exists rs. split; [exact Hrs |].
  rewrite Hprint, Hrs. reflexivity.
Defined.

(** What the script prints for the balanced solution of its scenario. *)
Example print_solution_balanced :
  print_solution scenario (model_of scenario) balanced_assignment 16 =
  Some [ TruckLine 0 36 ["Depot A"; "C1"; "C3"; "C6"; "Depot A"];
         TruckLine 1 34 ["Depot A"; "C2"; "C4"; "C5"; "Depot A"];
         TruckLine 2 28 ["Depot B"; "C7"; "C9"; "C12"; "Depot B"];
         TruckLine 3 35 ["Depot B"; "C8"; "C10"; "C11"; "Depot B"];
         TextLine ""; TotalLine 133 ].
Proof. vm_compute. reflexivity. Qed.

Lemma too_few_customers_no_solution_witness :
  build_model lone_depot_scenario = Ok (model_of lone_depot_scenario) /\
  (List.length (customers_by_role lone_depot_scenario) <
   vehicles (model_of lone_depot_scenario))%nat /\
  sound (checked_solver []) /\
  checked_solver [] (model_of lone_depot_scenario) = None /\
  exists plot,
    program lone_depot_scenario 4 true (checked_solver []) =
    Completed [no_solution_line] plot.
Proof.
  assert (Hfew : (List.length (customers_by_role lone_depot_scenario) <
                  vehicles (model_of lone_depot_scenario))%nat)
    by (vm_compute; lia).
  destruct (too_few_customers_no_solution
              lone_depot_scenario lone_depot_model_Ok (or_introl Hfew))
    as [_ Hsolve].
  destruct (Hsolve (checked_solver []) (checked_solver_sound []))
    as [Hnone Hrun].
  split; [exact lone_depot_model_Ok |].
  split; [exact Hfew |].
  split; [apply checked_solver_sound |].
  split; [exact Hnone | exact (Hrun 4%nat true)].
Defined.

Lemma infeasible_model_reports_no_solution_witness :
  build_model lone_depot_scenario = Ok (model_of lone_depot_scenario) /\
  sound (checked_solver []) /\
  (forall a, ~ feasible (model_of lone_depot_scenario) a) /\
  checked_solver [] (model_of lone_depot_scenario) = None /\
  exists plot,
    program lone_depot_scenario 4 false (checked_solver []) =
    Completed [no_solution_line] plot.
Proof.
  assert (Hinf : forall a, ~ feasible (model_of lone_depot_scenario) a).
  { apply (@few_customers_infeasible lone_depot_scenario _ lone_depot_model_Ok).
    vm_compute. lia. }
  destruct (infeasible_model_reports_no_solution
              lone_depot_scenario lone_depot_model_Ok
              (checked_solver_sound []) Hinf) as [Hnone Hrun].
  split; [exact lone_depot_model_Ok |].
  split; [apply checked_solver_sound |].
  split; [exact Hinf |].
  split; [exact Hnone | exact (Hrun 4%nat false)].
Defined.

Lemma plotting_entered_without_solution_witness :
  build_model lone_depot_scenario = Ok (model_of lone_depot_scenario) /\
  (1 <= vehicles (model_of lone_depot_scenario))%nat /\
  checked_solver [] (model_of lone_depot_scenario) = None /\
  program lone_depot_scenario 4 true (checked_solver []) =
  Completed [no_solution_line] [plt_figure].
Proof.
  assert (Hv : (1 <= vehicles (model_of lone_depot_scenario))%nat)
    by (vm_compute; lia).
  assert (Hnone : checked_solver [] (model_of lone_depot_scenario) = None)
    by (vm_compute; reflexivity).
  split; [exact lone_depot_model_Ok |].
  split; [exact Hv |].
  split; [exact Hnone |].
  exact (plotting_entered_without_solution
           lone_depot_scenario (checked_solver []) 4
           lone_depot_model_Ok Hv Hnone).
Defined.

(* ========================================================================= *)
(** * Further properties of the script *)
(* ========================================================================= *)

(* ------------------------------------------------------------------------- *)
(** ** Names, indices and coordinates *)
(* ------------------------------------------------------------------------- *)

Section Tables.

Variable cfg : Config.

Lemma index_of_nth i :
  (i < n cfg)%nat ->
  dict_get (index_of cfg) (nth i (node_names cfg) "") = Some i.
Proof.
  intros Hi.
  assert (Hin : In (nth i (node_names cfg) "") (node_names cfg)).
  { apply nth_In. now rewrite <- n_node_names. }
  destruct (dict_get (index_of cfg) (nth i (node_names cfg) "")) as [j |] eqn:Hj.
  - destruct (index_of_Some cfg _ Hj) as [Hlt Hnth].
    f_equal.
    apply (proj1 (NoDup_nth (node_names cfg) "") (node_names_NoDup cfg));
      rewrite <- ?n_node_names; assumption.
  - apply index_of_None in Hj. contradiction.
Qed.

Lemma locations_nth i :
  (i < n cfg)%nat ->
  dict_get (locations cfg) (nth i (node_names cfg) "") = Some (coord_at cfg i).
Proof.
  intros Hi. unfold coord_at, coords.
  rewrite n_node_names in Hi.
  rewrite (nth_indep _ (0, 0)
             (match dict_get (locations cfg) "" with
              | Some c => c
              | None => (0, 0)
              end)) by (now rewrite length_map).
  rewrite (map_nth (fun name => match dict_get (locations cfg) name with
                                | Some c => c
                                | None => (0, 0)
                                end)).
  destruct (dict_get (locations cfg) (nth i (node_names cfg) "")) as [c |] eqn:Hc;
    [reflexivity |].
  apply dict_get_None in Hc. exfalso. apply Hc.
  now apply nth_In.
Qed.

Lemma n_distinct_names :
  n cfg = List.length (nodup string_dec (map fst (locations_items cfg))).
Proof.
  rewrite n_node_names.
  destruct (mkdict_spec (locations_items cfg)) as (Hnd & Hkeys & _).
  apply Nat.le_antisymm; apply NoDup_incl_length;
    try assumption; try apply NoDup_nodup;
    intros name Hname.
  - apply nodup_In. now apply Hkeys.
  - apply Hkeys. now apply nodup_In in Hname.
Qed.

End Tables.

(** X1.  [index_of] and [node_names] are inverse to each other: the index of
    the [i]-th name is [i], a name with index [i] is the [i]-th name, and a
    name has an index exactly when it has a location. *)
Theorem index_of_inverts_node_names :
  forall (cfg : Config) (name : string) (i : nat),
    ((i < n cfg)%nat ->
     dict_get (index_of cfg) (nth i (node_names cfg) "") = Some i) /\
    (dict_get (index_of cfg) name = Some i ->
     (i < n cfg)%nat /\ nth i (node_names cfg) "" = name) /\
    (dict_get (index_of cfg) name = None <->
     dict_get (locations cfg) name = None).
Proof.
  intros cfg name i. split; [apply index_of_nth |].
  split; [apply index_of_Some |].
  rewrite index_of_None, dict_get_None. reflexivity.
Qed.

Lemma index_of_inverts_node_names_witness :
  dict_get (index_of scenario) (nth 5 (node_names scenario) "") = Some 5%nat /\
  (5 < n scenario)%nat /\ nth 5 (node_names scenario) "" = "C4".
Proof.
  destruct (index_of_inverts_node_names scenario "C4" 5) as (Hfwd & Hback & _).
  split.
  - apply Hfwd. vm_compute. lia.
  - apply Hback. vm_compute. reflexivity.
Defined.

(** X2.  The tables built from [locations] are aligned: there is one node per
    distinct name of the display, the [i]-th coordinate is the location of
    the [i]-th name, and the distance matrix is square, with as many rows and
    as many entries per row as there are nodes. *)
Theorem tables_are_aligned :
  forall (cfg : Config),
    n cfg = List.length (nodup string_dec (map fst (locations_items cfg))) /\
    List.length (node_names cfg) = n cfg /\
    List.length (distance_matrix cfg) = n cfg /\
    (forall row, In row (distance_matrix cfg) -> List.length row = n cfg) /\
    (forall i, (i < n cfg)%nat ->
               dict_get (locations cfg) (nth i (node_names cfg) "") =
               Some (coord_at cfg i)).
Proof.
  intros cfg.
  split; [apply n_distinct_names |].
  split; [symmetry; apply n_node_names |].
  split; [apply distance_matrix_length |].
  split; [| apply locations_nth].
  intros row Hrow. unfold distance_matrix in Hrow.
  apply in_map_iff in Hrow as (i & <- & _).
  now rewrite length_map, length_seq.
Qed.

Lemma tables_are_aligned_witness :
  (3 < n scenario)%nat /\
  dict_get (locations scenario) (nth 3 (node_names scenario) "") =
  Some (coord_at scenario 3).
Proof.
  assert (H : (3 < n scenario)%nat) by (vm_compute; lia).
  split; [exact H |].
  exact (proj2 (proj2 (proj2 (proj2 (tables_are_aligned scenario)))) 3%nat H).
Defined.

(* ------------------------------------------------------------------------- *)
(** ** More on the distance oracle *)
(* ------------------------------------------------------------------------- *)





(** Without the bound the lower estimate of X4 fails: the cost of [(0, 0)]
    and [(2^53 + 1, 0)] is [2^53]. *)
Example euclid_below_coordinate_difference :
  euclid (0, 0) (9007199254740993, 0) = 9007199254740992 /\
  Z.abs (0 - 9007199254740993) = 9007199254740993.
Proof. split; vm_compute; reflexivity. Qed.

(* ------------------------------------------------------------------------- *)
(** ** Nodes behind the indices *)
(* ------------------------------------------------------------------------- *)

Section ManagerNodes.

Variables (nodes : nat) (starts ends : list nat).

Let regular := regular_nodes nodes starts ends.

Lemma position_Some l x i :
  position x l = Some i -> (i < List.length l)%nat /\ nth i l 0%nat = x.
Proof.
  revert i. induction l as [| y l IH]; simpl; intros i; [discriminate |].
  destruct (Nat.eqb_spec y x) as [-> | Hne].
  - intros [= <-]. split; [lia | reflexivity].
  - destruct (position x l) as [j |]; [| discriminate].
    intros [= <-]. destruct (IH j eq_refl) as [Hlt Hnth].
    split; [lia | assumption].
Qed.

Lemma node_to_index_In x :
  In x regular ->
  (node_to_index regular x < List.length regular)%nat /\
  nth (node_to_index regular x) regular 0%nat = x.
Proof.
  intros H. unfold node_to_index.
  destruct (position_In _ _ H) as [i [Hi _]]. rewrite Hi.
  now apply position_Some.
Qed.

Lemma Forall2_nth_rel {A B} (R : A -> B -> Prop) l l' d d' :
  Forall2 R l l' ->
  forall k, (k < List.length l)%nat -> R (nth k l d) (nth k l' d').
Proof.
  induction 1 as [| x y l l' Hxy _ IH]; intros k Hk; simpl in *; [lia |].
  destruct k as [| k]; [assumption | apply IH; lia].
Qed.

Lemma place_starts_nodes sts :
  forall seen itn vts done itn' vts',
    place_starts regular sts seen itn vts = (itn', vts') ->
    (forall s, In s sts -> In s regular) ->
    (exists pre, itn = regular ++ pre) ->
    Forall2 (fun idx s => (idx < List.length itn)%nat /\ nth idx itn 0%nat = s)
            vts done ->
    Forall2 (fun idx s => (idx < List.length itn')%nat /\ nth idx itn' 0%nat = s)
            vts' (done ++ sts).
Proof.
  induction sts as [| start rest IH]; intros seen itn vts done itn' vts'; simpl.
  - intros [= <- <-] _ _ H. now rewrite app_nil_r.
  - intros Hp Hreg [pre Hpre] Hdone.
    replace (done ++ start :: rest) with ((done ++ [start]) ++ rest)
      by (rewrite <- app_assoc; reflexivity).
    destruct (mem start seen).
    + eapply IH; eauto.
      * exists (pre ++ [start]). rewrite Hpre. now rewrite app_assoc.
      * apply Forall2_app.
        -- eapply Forall2_impl; [| exact Hdone].
           intros idx s [Hlt Hnth]. rewrite length_app. simpl.
           split; [lia |]. now rewrite app_nth1.
        -- constructor; [| constructor]. rewrite length_app. simpl.
           split; [lia |]. apply nth_middle.
    + eapply IH; eauto.
      apply Forall2_app; [assumption |].
      constructor; [| constructor].
      destruct (node_to_index_In start) as [Hlt Hnth]; [apply Hreg; now left |].
      rewrite Hpre, length_app. split; [lia |]. now rewrite app_nth1.
Qed.

Lemma place_starts_extra sts :
  forall seen itn vts itn' vts',
    place_starts regular sts seen itn vts = (itn', vts') ->
    exists extra, itn' = itn ++ extra /\ forall x, In x extra -> In x sts.
Proof.
  induction sts as [| start rest IH]; intros seen itn vts itn' vts'; simpl.
  - intros [= <- <-]. exists []. split; [now rewrite app_nil_r | intros x []].
  - destruct (mem start seen); intros Hp;
      apply IH in Hp as (extra & -> & Hin).
    + exists (start :: extra). split; [now rewrite <- app_assoc |].
      intros x [<- | Hx]; [now left | right; now apply Hin].
    + exists extra. split; [reflexivity |]. intros x Hx. right. now apply Hin.
Qed.

Variable nv : nat.

Let mg := RoutingIndexManager nodes nv starts ends.

Hypothesis starts_lt : forall s, In s starts -> (s < nodes)%nat.

Lemma starts_regular s : In s starts -> In s regular.
Proof. intros H. apply regular_In. split; [now apply starts_lt | now left]. Qed.

Lemma regular_le_size : (List.length regular <= size mg)%nat.
Proof.
  unfold mg, RoutingIndexManager. simpl. fold regular.
  destruct (place_starts regular starts [] regular []) as [itn' vts'] eqn:Hp.
  apply place_starts_extra in Hp as (extra & -> & _).
  simpl. rewrite length_app. lia.
Qed.

(** The start index of a vehicle stands for its start node. *)
Lemma start_index_node v :
  (v < List.length starts)%nat ->
  IndexToNode mg (nth v (vehicle_to_start mg) 0%nat) = nth v starts 0%nat.
Proof.
  intros Hv. unfold IndexToNode, mg, RoutingIndexManager. simpl. fold regular.
  destruct (place_starts regular starts [] regular []) as [itn' vts'] eqn:Hp.
  simpl.
  pose proof (place_starts_spec _ _ _ _ _ _ _ Hp) as (_ & _ & _ & _ & Hlen).
  eapply place_starts_nodes with (done := []) in Hp;
    [| exact starts_regular | exists []; now rewrite app_nil_r | constructor].
  simpl in Hlen, Hp.
  destruct (@Forall2_nth_rel _ _ _ _ _ 0%nat 0%nat Hp v) as [Hlt Hnth]; [lia |].
  now rewrite app_nth1.
Qed.

(** The end index of a vehicle stands for its end node. *)
Lemma end_index_node v :
  IndexToNode mg (size mg + v) = nth v ends 0%nat.
Proof.
  unfold IndexToNode, mg, RoutingIndexManager. simpl.
  apply app_nth2_plus.
Qed.

Hypothesis ends_lt : forall e, In e ends -> (e < nodes)%nat.

(** Every index of the model stands for a node. *)
Lemma index_node_lt index :
  (index < List.length (index_to_node mg))%nat ->
  (IndexToNode mg index < nodes)%nat.
Proof.
  intros Hi. unfold IndexToNode.
  assert (Hin : In (nth index (index_to_node mg) 0%nat) (index_to_node mg))
    by (now apply nth_In).
  revert Hin. generalize (nth index (index_to_node mg) 0%nat). intros x.
  unfold mg, RoutingIndexManager. simpl. fold regular.
  destruct (place_starts regular starts [] regular []) as [itn' vts'] eqn:Hp.
  apply place_starts_extra in Hp as (extra & -> & Hextra). simpl.
  rewrite !in_app_iff. intros [[H | H] | H].
  - now apply regular_In in H.
  - now apply starts_lt, Hextra.
  - now apply ends_lt.
Qed.

Lemma index_to_node_length :
  List.length (index_to_node mg) = (size mg + List.length ends)%nat.
Proof. unfold mg, RoutingIndexManager. simpl. now rewrite length_app. Qed.

End ManagerNodes.

Section ClosedManager.

Variables (nodes nv : nat) (starts : list nat).

Lemma regular_closed : regular_nodes nodes starts starts = seq 0 nodes.
Proof.
  unfold regular_nodes. apply filter_all. intros x _.
  destruct (mem x starts); reflexivity.
Qed.

(** When every vehicle ends where it starts, the first indices are the nodes
    themselves. *)
Lemma index_node_id i :
  (i < nodes)%nat ->
  IndexToNode (RoutingIndexManager nodes nv starts starts) i = i /\
  (i < size (RoutingIndexManager nodes nv starts starts))%nat.
Proof.
  intros Hi. unfold IndexToNode, RoutingIndexManager. simpl.
  rewrite regular_closed.
  destruct (place_starts (seq 0 nodes) starts [] (seq 0 nodes) [])
    as [itn' vts'] eqn:Hp.
  rewrite <- regular_closed in Hp at 1.
  apply place_starts_extra in Hp as (extra & -> & _). simpl.
  rewrite !length_app, length_seq.
  rewrite <- app_assoc, app_nth1 by (rewrite length_seq; lia).
  rewrite seq_nth by assumption. split; lia.
Qed.

End ClosedManager.

(* ------------------------------------------------------------------------- *)
(** ** Vehicles and their depots *)
(* ------------------------------------------------------------------------- *)

Section VehicleOrder.

Variable cfg : Config.

Lemma starts_ends_loop_flat items :
  forall starts ends starts' ends',
    starts_ends_loop cfg items starts ends = Ok (starts', ends') ->
    starts' = starts ++
              flat_map (fun kv => repeat (depot_index cfg (fst kv))
                                         (Z.to_nat (snd kv))) items /\
    ends' = ends ++
            flat_map (fun kv => repeat (depot_index cfg (fst kv))
                                       (Z.to_nat (snd kv))) items /\
    (forall kv, In kv items -> dict_get (index_of cfg) (fst kv) <> None).
Proof.
  induction items as [| [depot_name cnt] items IH];
    intros starts ends starts' ends'; simpl.
  - intros [= <- <-]. rewrite !app_nil_r. repeat split. intros kv [].
  - unfold depot_index at 1 3. simpl fst.
    destruct (dict_get (index_of cfg) depot_name) as [idx |] eqn:Hget;
      [| discriminate].
    rewrite append_vehicles_eq. simpl fst. simpl snd. intros H.
    apply IH in H as (-> & -> & Hall).
    rewrite <- !app_assoc. repeat split.
    intros kv [<- | Hin]; [simpl; congruence | now apply Hall].
Qed.

End VehicleOrder.

Lemma starts_ends_flat (cfg : Config) starts ends :
  starts_ends cfg = Ok (starts, ends) ->
  starts = flat_map (fun kv => repeat (depot_index cfg (fst kv))
                                      (Z.to_nat (snd kv)))
                    (vehicles_per_depot cfg) /\
  (forall kv, In kv (vehicles_per_depot cfg) ->
              dict_get (index_of cfg) (fst kv) <> None).
Proof.
  unfold starts_ends. intros Hse.
  apply starts_ends_loop_flat in Hse as (Hs & _ & Hall).
  simpl in Hs. split; assumption.
Qed.

(** X5.  When the loop over [vehicles_per_depot] succeeds, the vehicles are
    numbered depot by depot in the order of the dictionary, each depot giving
    as many vehicles as its count (none for a count of zero or less); every
    vehicle ends at the node where it starts, which is a node of the
    scenario; and every depot listed, whatever its count, has a location. *)
Theorem vehicles_follow_depot_order :
  forall (cfg : Config) (starts ends : list nat),
    starts_ends cfg = Ok (starts, ends) ->
    starts = flat_map (fun kv => repeat (depot_index cfg (fst kv))
                                        (Z.to_nat (snd kv)))
                      (vehicles_per_depot cfg) /\
    ends = starts /\
    (forall x, In x starts -> (x < n cfg)%nat) /\
    (forall depot_name cnt,
        In (depot_name, cnt) (vehicles_per_depot cfg) ->
        dict_get (locations cfg) depot_name <> None).
Proof.
  intros cfg starts ends Hse.
  destruct (starts_ends_Ok cfg Hse) as (Heq & Hlt & _).
  destruct (starts_ends_flat cfg Hse) as (Hs & Hall).
  repeat split; auto.
  intros depot_name cnt Hin Hnone.
  apply (Hall _ Hin). simpl.
  apply index_of_None. now apply dict_get_None in Hnone.
Qed.

Lemma vehicles_follow_depot_order_witness :
  starts_ends scenario = Ok ([0; 0; 1; 1]%nat, [0; 0; 1; 1]%nat) /\
  [0; 0; 1; 1]%nat =
    flat_map (fun kv => repeat (depot_index scenario (fst kv))
                               (Z.to_nat (snd kv)))
             (vehicles_per_depot scenario).
Proof.
  assert (H : starts_ends scenario = Ok ([0; 0; 1; 1]%nat, [0; 0; 1; 1]%nat))
    by (vm_compute; reflexivity).
  split; [exact H |].
  exact (proj1 (vehicles_follow_depot_order scenario H)).
Defined.

Section Depots.

Variable cfg : Config.
Variable m : RoutingModel.
Hypothesis Hm : build_model cfg = Ok m.

Lemma built_index_nodes :
  (forall v, (v < vehicles m)%nat ->
             IndexToNode (manager m) (Start m v) = depot_of cfg v /\
             IndexToNode (manager m) (End m v) = depot_of cfg v /\
             End m v = (Size m + v)%nat /\
             (depot_of cfg v < n cfg)%nat) /\
  (forall i, (i < n cfg)%nat ->
             IndexToNode (manager m) i = i /\ (i < Size m)%nat) /\
  (forall index, (index < Size m + vehicles m)%nat ->
                 (IndexToNode (manager m) index < n cfg)%nat).
Proof.
  destruct (built_starts cfg Hm) as (starts & Hse & Hso & Hmg & Hnv & Hlt).
  unfold Start, End, Size, depot_of. rewrite Hso, Hmg, Hnv.
  split; [| split].
  - intros v Hv. repeat split.
    + now apply start_index_node.
    + rewrite vehicle_to_end_nth by assumption. apply end_index_node.
    + now apply vehicle_to_end_nth.
    + apply Hlt, nth_In. assumption.
  - intros i Hi. now apply index_node_id.
  - intros index Hi. apply index_node_lt; try assumption.
    rewrite index_to_node_length. exact Hi.
Qed.

Lemma depot_of_listed v :
  (v < vehicles m)%nat ->
  exists cnt,
    dict_get (vehicles_per_depot cfg) (nth (depot_of cfg v) (node_names cfg) "")
      = Some cnt /\ 0 < cnt.
Proof.
  intros Hv.
  destruct (built_starts cfg Hm) as (starts & Hse & Hso & _ & Hnv & _).
  destruct (starts_ends_flat cfg Hse) as (Hflat & Hall).
  assert (Hin : In (depot_of cfg v) starts).
  { unfold depot_of. rewrite Hso. apply nth_In. lia. }
  rewrite Hflat in Hin. apply in_flat_map in Hin as ([name cnt] & Hkv & Hrep).
  simpl in Hrep. apply repeat_spec in Hrep as Hidx.
  assert (Hpos : 0 < cnt).
  { destruct (Z.to_nat cnt) eqn:Hc; [destruct Hrep | lia]. }
  specialize (Hall _ Hkv). simpl in Hall.
  unfold depot_index in Hidx.
  destruct (dict_get (index_of cfg) name) as [idx |] eqn:Hget; [| congruence].
  destruct (index_of_Some cfg name Hget) as [_ Hname].
  rewrite Hidx, Hname.
  exists cnt. split; [| assumption].
  apply NoDup_In_dict_get; [| assumption].
  apply (mkdict_spec (vehicles_per_depot_items cfg)).
Qed.

End Depots.

(** X6.  Every route is a closed tour at the vehicle's own depot: the start
    index and the end index of a vehicle are two different indices for the
    same node, the node of a depot listed with a positive count; in every
    assignment that satisfies the model the route of the vehicle begins and
    ends with the name of that depot. *)
Theorem routes_are_closed_tours :
  forall (cfg : Config) (m : RoutingModel) (v : nat),
    build_model cfg = Ok m ->
    (v < vehicles m)%nat ->
    IndexToNode (manager m) (Start m v) = depot_of cfg v /\
    IndexToNode (manager m) (End m v) = depot_of cfg v /\
    Start m v <> End m v /\
    (depot_of cfg v < n cfg)%nat /\
    (exists cnt,
        dict_get (vehicles_per_depot cfg)
                 (nth (depot_of cfg v) (node_names cfg) "") = Some cnt /\
        0 < cnt) /\
    (forall a, feasible m a ->
       exists r,
         route m a v = Some r /\
         name_at cfg m (hd 0%nat r) = nth (depot_of cfg v) (node_names cfg) "" /\
         name_at cfg m (last r 0%nat) = nth (depot_of cfg v) (node_names cfg) "").
Proof.
  intros cfg m v Hm Hv.
  destruct (built_index_nodes cfg Hm) as (Hse & _ & _).
  destruct (Hse v Hv) as (Hs & He & Hend & Hlt).
  split; [exact Hs |]. split; [exact He |].
  split.
  { pose proof (@start_lt_Size cfg m Hm v Hv). lia. }
  split; [exact Hlt |].
  split; [now apply (@depot_of_listed cfg m Hm v) |].
  intros a Hf.
  destruct (@route_three_stops cfg m Hm a Hf v Hv) as (r & Hr & Hlast & _).
  exists r. split; [exact Hr |].
  destruct (walk_hd _ _ _ _ Hr) as [t ->].
  unfold name_at. rewrite Hlast. simpl hd. now rewrite Hs, He.
Qed.

Lemma routes_are_closed_tours_witness :
  build_model scenario = Ok (model_of scenario) /\
  (1 < vehicles (model_of scenario))%nat /\
  IndexToNode (manager (model_of scenario)) (Start (model_of scenario) 1) =
  IndexToNode (manager (model_of scenario)) (End (model_of scenario) 1).
Proof.
  assert (Hv : (1 < vehicles (model_of scenario))%nat) by (vm_compute; lia).
  split; [exact scenario_model_Ok |]. split; [exact Hv |].
  destruct (routes_are_closed_tours scenario scenario_model_Ok Hv)
    as (Hs & He & _).
  now rewrite Hs, He.
Defined.

(* ------------------------------------------------------------------------- *)
(** ** Coverage and capacity *)
(* ------------------------------------------------------------------------- *)

Section Coverage.

Variable cfg : Config.
Variable m : RoutingModel.
Hypothesis Hm : build_model cfg = Ok m.
Variable a : Assignment.
Hypothesis Hf : feasible m a.

Lemma visited_covers index : (index < Size m)%nat -> In index (visited m a).
Proof.
  intros Hi.
  destruct (feasible_inv Hf) as (_ & Hnd & Hlen & _).
  assert (Hincl : incl (seq 0 (Size m)) (visited m a)).
  { apply NoDup_length_incl; [assumption | rewrite length_seq; lia |].
    intros x Hx. apply in_flat_map in Hx as (v & Hv & Hx).
    destruct (route m a v) as [r |] eqn:Hr; [| destruct Hx].
    pose proof (walk_body _ _ _ _ Hr _ Hx) as He.
    unfold IsEnd in He. apply Nat.leb_gt in He. apply in_seq. lia. }
  apply Hincl, in_seq. lia.
Qed.

(** A location where no vehicle is based is a stop of exactly one route. *)
Lemma customer_on_one_route node :
  In node (customers_by_role cfg) ->
  IndexToNode (manager m) node = node /\
  exists v r,
    (v < vehicles m)%nat /\ route m a v = Some r /\
    In node (intermediate_stops r) /\
    NoDup (removelast r) /\
    forall v' r', (v' < vehicles m)%nat -> route m a v' = Some r' ->
                  In node r' -> v' = v.
Proof.
  intros Hnode. unfold customers_by_role in Hnode.
  apply filter_In in Hnode as [Hin Hnb]. apply in_seq in Hin.
  destruct (built_index_nodes cfg Hm) as (Hse & Hid & _).
  destruct (Hid node) as [Hnode Hlt]; [lia |].
  split; [exact Hnode |].
  pose proof (visited_covers Hlt) as Hvis.
  apply in_flat_map in Hvis as (v & Hv & Hx). apply in_seq in Hv.
  destruct (route m a v) as [r |] eqn:Hr; [| destruct Hx].
  exists v, r. split; [lia |]. split; [exact Hr |].
  destruct (feasible_inv Hf) as (_ & Hnd & _).
  assert (Hbody : NoDup (removelast r)).
  { assert (H : NoDup (body_of m a v)).
    { apply NoDup_flat_map_each
        with (f := body_of m a) (l := seq 0 (vehicles m)); auto.
      apply in_seq. lia. }
    unfold body_of in H. now rewrite Hr in H. }
  split; [| split; [exact Hbody |]].
  - destruct (walk_hd _ _ _ _ Hr) as [t Ht]. subst r.
    unfold intermediate_stops.
    destruct (removelast (Start m v :: t)) as [| s body] eqn:Hb;
      [destruct Hx |].
    assert (Hs : s = Start m v).
    { destruct t as [| y t]; [discriminate Hb |].
      rewrite removelast_cons2 in Hb. now injection Hb as <- _. }
    destruct Hx as [Hx | Hx]; [| exact Hx].
    exfalso. apply negb_true_iff, mem_false in Hnb. apply Hnb.
    unfold is_base in *.
    destruct (Hse v) as (Hstart & _); [lia |].
    rewrite <- Hnode, <- Hx, Hs, Hstart. unfold depot_of.
    apply nth_In.
    destruct (built_starts cfg Hm) as (starts & _ & -> & _ & Hnv & _). lia.
  - intros v' r' Hv' Hr' Hin'.
    apply NoDup_flat_map_disjoint
      with (f := body_of m a) (l := seq 0 (vehicles m)) (x := node);
      auto using seq_NoDup; try (apply in_seq; lia).
    + unfold body_of. rewrite Hr'.
      assert (Hne : r' <> []).
      { destruct (walk_hd _ _ _ _ Hr') as [t ->]. discriminate. }
      rewrite (app_removelast_last 0%nat Hne) in Hin'.
      apply in_app_or in Hin' as [H | [H | []]]; [exact H |].
      pose proof (walk_last _ _ _ _ Hr') as He. rewrite H in He.
      unfold IsEnd in He. apply Nat.leb_le in He. lia.
    + unfold body_of. now rewrite Hr.
Qed.

Lemma counted_stops_le v r :
  (v < vehicles m)%nat -> route m a v = Some r ->
  (List.length (counted_stops cfg m r) <= 4)%nat.
Proof.
  intros Hv Hr.
  set (d := {| dim_name := "Capacity"; dim_evaluator := 1; dim_slack_max := 0;
               dim_capacities := repeat 4 (vehicles m);
               dim_fix_start_cumul_to_zero := true |}).
  assert (Hin : In d (dimensions m))
    by (rewrite (built_dimensions cfg Hm); now left).
  destruct (end_cumul d Hf Hin Hv eq_refl eq_refl Hr) as [Hc Hb].
  destruct (built_evaluators cfg Hm) as (_ & He & _).
  rewrite (path_cost_ext _
             (fun i _ => if named_depot cfg (IndexToNode (manager m) i)
                         then 0 else 1) r) in Hc by exact He.
  rewrite path_cost_unary in Hc.
  rewrite (sum_indicator
             (fun i => named_depot cfg (IndexToNode (manager m) i))) in Hc.
  simpl dim_capacities in Hb. rewrite nth_repeat_lt in Hb by assumption.
  rewrite Hc in Hb. unfold counted_stops. lia.
Qed.

End Coverage.

Lemma flat_map_length_le {A B} (f : A -> list B) (l : list A) k :
  (forall x, In x l -> (List.length (f x) <= k)%nat) ->
  (List.length (flat_map f l) <= k * List.length l)%nat.
Proof.
  induction l as [| x l IH]; simpl; intros H; [lia |].
  rewrite length_app.
  assert (List.length (f x) <= k)%nat by (apply H; now left).
  assert (List.length (flat_map f l) <= k * List.length l)%nat
    by (apply IH; intros; apply H; now right).
  lia.
Qed.

(** X7.  In every assignment that satisfies the model each location where no
    vehicle is based is served exactly once: it is a stop, between start and
    end, of one route, it is on no other route, and no route repeats a
    stop. *)
Theorem every_customer_served_once :
  forall (cfg : Config) (m : RoutingModel) (a : Assignment) (node : nat),
    build_model cfg = Ok m ->
    feasible m a ->
    In node (customers_by_role cfg) ->
    IndexToNode (manager m) node = node /\
    exists v r,
      (v < vehicles m)%nat /\ route m a v = Some r /\
      In node (intermediate_stops r) /\
      NoDup (removelast r) /\
      forall v' r', (v' < vehicles m)%nat -> route m a v' = Some r' ->
                    In node r' -> v' = v.
Proof.
  intros cfg m a node Hm Hf. now apply customer_on_one_route.
Qed.

Lemma every_customer_served_once_witness :
  build_model scenario = Ok (model_of scenario) /\
  feasible (model_of scenario) balanced_assignment /\
  In 5%nat (customers_by_role scenario) /\
  exists v r,
    (v < vehicles (model_of scenario))%nat /\
    route (model_of scenario) balanced_assignment v = Some r /\
    In 5%nat (intermediate_stops r).
Proof.
  assert (Hin : In 5%nat (customers_by_role scenario))
    by (vm_compute; tauto).
  split; [exact scenario_model_Ok |].
  split; [exact balanced_assignment_feasible |].
  split; [exact Hin |].
  destruct (@every_customer_served_once
              scenario _ _ 5%nat
              scenario_model_Ok balanced_assignment_feasible Hin)
    as (_ & v & r & Hv & Hr & Hstop & _).
  exists v, r. split; [exact Hv |]. split; [exact Hr | exact Hstop].
Defined.

(** X8.  With more than four counted customers per vehicle (locations where
    no vehicle is based and whose name does not start with "Depot") no
    assignment satisfies the model; a search that only returns assignments
    satisfying the model returns none and the script prints the diagnostic
    and no route. *)
Theorem too_many_customers_no_solution :
  forall (cfg : Config) (m : RoutingModel),
    build_model cfg = Ok m ->
    (4 * vehicles m < List.length (counted_customers cfg))%nat ->
    (forall a, ~ feasible m a) /\
    (forall solve, sound solve ->
       solve m = None /\
       forall fuel matplotlib,
       exists plot,
         program cfg fuel matplotlib solve = Completed [no_solution_line] plot).
Proof.
  intros cfg m Hm Hmany.
  assert (Hinf : forall a, ~ feasible m a).
  { intros a Hf.
    pose (f := fun v => filter (fun i => negb (named_depot cfg
                                                 (IndexToNode (manager m) i)))
                               (body_of m a v)).
    assert (Hincl : incl (counted_customers cfg)
                         (flat_map f (seq 0 (vehicles m)))).
    { intros node Hnode. unfold counted_customers in Hnode.
      apply filter_In in Hnode as [Hin Hp].
      apply andb_true_iff in Hp as [Hbase Hname].
      assert (Hrole : In node (customers_by_role cfg)).
      { unfold customers_by_role. apply filter_In. now split. }
      destruct (@customer_on_one_route cfg m Hm a Hf node Hrole)
        as (Hid & v & r & Hv & Hr & Hstop & _).
      apply in_flat_map. exists v. split; [apply in_seq; lia |].
      unfold f, body_of. rewrite Hr. apply filter_In.
      split; [now apply intermediate_in_body | now rewrite Hid]. }
    assert (Hnd : NoDup (counted_customers cfg))
      by (apply NoDup_filter, seq_NoDup).
    pose proof (NoDup_incl_length Hnd Hincl) as Hle.
    assert (Hsum : (List.length (flat_map f (seq 0 (vehicles m))) <=
                    4 * List.length (seq 0 (vehicles m)))%nat).
    { apply flat_map_length_le. intros v Hv. apply in_seq in Hv.
      destruct (@route_three_stops cfg m Hm a Hf v) as (r & Hr & _); [lia |].
      unfold f, body_of. rewrite Hr.
      apply (@counted_stops_le cfg m Hm a Hf v r); [lia | assumption]. }
    rewrite length_seq in Hsum. lia. }
  split; [exact Hinf |].
  intros solve Hsound.
  assert (Hnone : solve m = None).
  { destruct (solve m) as [a |] eqn:Hs; [| reflexivity].
    exfalso. apply (Hinf a). now apply Hsound. }
  split; [exact Hnone |].
  intros fuel matplotlib.
  destruct (@program_no_solution cfg m Hm fuel matplotlib solve Hnone)
    as (plot & _ & Hp).
  eauto.
Qed.

Lemma too_many_customers_no_solution_witness :
  build_model crowded_scenario = Ok (model_of crowded_scenario) /\
  (4 * vehicles (model_of crowded_scenario) <
   List.length (counted_customers crowded_scenario))%nat /\
  sound (checked_solver crowded_routes) /\
  checked_solver crowded_routes (model_of crowded_scenario) = None.
Proof.
  assert (Hm : build_model crowded_scenario = Ok (model_of crowded_scenario)).
  { apply model_of_Ok with (se := ([0%nat], [0%nat])). vm_compute. reflexivity. }
  assert (Hmany : (4 * vehicles (model_of crowded_scenario) <
                   List.length (counted_customers crowded_scenario))%nat)
    by (vm_compute; lia).
  split; [exact Hm |]. split; [exact Hmany |].
  split; [apply checked_solver_sound |].
  destruct (too_many_customers_no_solution crowded_scenario Hm Hmany)
    as [_ Hsolve].
  exact (proj1 (Hsolve (checked_solver crowded_routes)
                       (checked_solver_sound crowded_routes))).
Defined.

(* ------------------------------------------------------------------------- *)
(** ** Arc costs on the indices of the model *)
(* ------------------------------------------------------------------------- *)

(** X9.  On the indices of the model the arc cost is the rounded Euclidean
    distance of the two locations behind the indices, the same for every
    vehicle: it is symmetric and non-negative, it is zero between two
    indices of the same location, and so the direct arc from the start index
    of a vehicle to its end index costs nothing. *)
Theorem arc_cost_is_symmetric :
  forall (cfg : Config) (m : RoutingModel) (i j v : nat),
    build_model cfg = Ok m ->
    (i < Size m + vehicles m)%nat ->
    (j < Size m + vehicles m)%nat ->
    GetArcCostForVehicle m i j v =
      euclid (stop_coord cfg m i) (stop_coord cfg m j) /\
    GetArcCostForVehicle m i j v = GetArcCostForVehicle m j i v /\
    0 <= GetArcCostForVehicle m i j v /\
    (IndexToNode (manager m) i = IndexToNode (manager m) j ->
     GetArcCostForVehicle m i j v = 0) /\
    (forall v', (v' < vehicles m)%nat ->
                GetArcCostForVehicle m (Start m v') (End m v') v = 0).
Proof.
  intros cfg m i j v Hm Hi Hj.
  destruct (built_evaluators cfg Hm) as (He & _ & _ & Hc).
  destruct (built_index_nodes cfg Hm) as (Hse & _ & Hlt).
  assert (Hcost : forall x y,
             (x < Size m + vehicles m)%nat -> (y < Size m + vehicles m)%nat ->
             GetArcCostForVehicle m x y v =
             euclid (stop_coord cfg m x) (stop_coord cfg m y)).
  { intros x y Hx Hy. rewrite Hc, He. unfold stop_coord.
    apply matrix_nth; now apply Hlt. }
  rewrite !Hcost by assumption.
  split; [reflexivity |]. split; [apply euclid_sym |].
  split; [apply euclid_nonneg |]. split.
  - intros Heq. unfold stop_coord. rewrite Heq. apply euclid_diag.
  - intros v' Hv'. destruct (Hse v' Hv') as (Hs & Hend & Hidx & _).
    pose proof (@start_lt_Size cfg m Hm v' Hv').
    rewrite Hcost by lia.
    unfold stop_coord. rewrite Hs, Hend. apply euclid_diag.
Qed.

Lemma arc_cost_is_symmetric_witness :
  build_model scenario = Ok (model_of scenario) /\
  (2 < Size (model_of scenario) + vehicles (model_of scenario))%nat /\
  (14 < Size (model_of scenario) + vehicles (model_of scenario))%nat /\
  GetArcCostForVehicle (model_of scenario) 2 14 0 =
  GetArcCostForVehicle (model_of scenario) 14 2 0.
Proof.
  assert (H2 : (2 < Size (model_of scenario) + vehicles (model_of scenario))%nat)
    by (vm_compute; lia).
  assert (H14 : (14 < Size (model_of scenario) +
                      vehicles (model_of scenario))%nat)
    by (vm_compute; lia).
  split; [exact scenario_model_Ok |].
  split; [exact H2 |]. split; [exact H14 |].
  exact (proj1 (proj2 (@arc_cost_is_symmetric
                         scenario _ 2%nat 14%nat 0%nat
                         scenario_model_Ok H2 H14))).
Defined.

(* ------------------------------------------------------------------------- *)
(** ** Plotting a solution *)
(* ------------------------------------------------------------------------- *)

Section PlotSolution.

Variable cfg : Config.
Variable m : RoutingModel.
Hypothesis Hm : build_model cfg = Ok m.
Variable a : Assignment.

Lemma plot_stop_Ok index xs ys labels :
  (index < Size m + vehicles m)%nat ->
  plot_stop cfg m index (xs, ys, labels) =
  Ok (xs ++ [fst (stop_coord cfg m index)],
      ys ++ [snd (stop_coord cfg m index)],
      labels ++ [name_at cfg m index]).
Proof.
  intros Hi. unfold plot_stop, name_at, stop_coord.
  destruct (built_index_nodes cfg Hm) as (_ & _ & Hlt).
  rewrite locations_nth by (now apply Hlt).
  now destruct (coord_at cfg (IndexToNode (manager m) index)).
Qed.

Lemma plot_loop_eq solution fuel index acc :
  plot_loop cfg m solution fuel index acc =
  if IsEnd m index then Some (Ok (index, acc))
  else match plot_stop cfg m index acc with
       | Raise e => Some (Raise e)
       | Ok acc' =>
           match solution with
           | None =>
               Some (Raise (AttributeError
                 "'NoneType' object has no attribute 'Value'"))
           | Some s =>
               match fuel with
               | O => None
               | S fuel' =>
                   plot_loop cfg m solution fuel'
                             (Z.to_nat (s (NextVar index))) acc'
               end
           end
       end.
Proof. destruct fuel; reflexivity. Qed.

(** With a solution the loop of the plotting block performs the walk,
    collecting the coordinates and the names of the stops before the end. *)
Lemma plot_loop_walk fuel :
  forall index xs ys labels,
    plot_loop cfg m (Some a) fuel index (xs, ys, labels) =
    match walk m a fuel index with
    | None => None
    | Some r =>
        Some (Ok (last r 0%nat,
                  (xs ++ map (fun i => fst (stop_coord cfg m i)) (removelast r),
                   ys ++ map (fun i => snd (stop_coord cfg m i)) (removelast r),
                   labels ++ map (name_at cfg m) (removelast r))))
    end.
Proof.
  induction fuel as [| fuel IH]; intros index xs ys labels;
    rewrite plot_loop_eq, walk_eq; destruct (IsEnd m index) eqn:He;
    try (simpl; rewrite !app_nil_r; reflexivity);
    (assert (Hi : (index < Size m + vehicles m)%nat)
      by (unfold IsEnd in He; apply Nat.leb_gt in He; lia));
    rewrite plot_stop_Ok by assumption; [reflexivity |].
  rewrite IH. fold (next a index).
  destruct (walk m a fuel (next a index)) as [t |] eqn:Hw; [| reflexivity].
  destruct (walk_hd _ _ _ _ Hw) as [t' ->]. simpl option_map. cbv iota beta.
  change (last (index :: next a index :: t') 0%nat)
    with (last (next a index :: t') 0%nat).
  rewrite removelast_cons2. simpl map. now rewrite <- !app_assoc.
Qed.

Lemma combine_texts (r : list nat) :
  map (fun p : Z * Z * string => plt_text (fst (fst p)) (snd (fst p)) (snd p))
      (combine (combine (map (fun i => fst (stop_coord cfg m i)) r)
                        (map (fun i => snd (stop_coord cfg m i)) r))
               (map (name_at cfg m) r)) =
  map (fun i => plt_text (fst (stop_coord cfg m i)) (snd (stop_coord cfg m i))
                         (name_at cfg m i)) r.
Proof. induction r as [| x r IH]; simpl; [reflexivity | now rewrite IH]. Qed.

Lemma plot_vehicle_walk fuel v r :
  walk m a fuel (Start m v) = Some r ->
  (last r 0%nat < Size m + vehicles m)%nat ->
  plot_vehicle cfg m (Some a) fuel v = Some (Ok (route_plot_calls cfg m v r)).
Proof.
  intros Hw Hlast. unfold plot_vehicle. rewrite plot_loop_walk, Hw.
  rewrite plot_stop_Ok by assumption.
  assert (Hne : r <> []).
  { destruct (walk_hd _ _ _ _ Hw) as [t ->]. discriminate. }
  change ([] ++ map (fun i => fst (stop_coord cfg m i)) (removelast r))
    with (map (fun i => fst (stop_coord cfg m i)) (removelast r)).
  change ([] ++ map (fun i => snd (stop_coord cfg m i)) (removelast r))
    with (map (fun i => snd (stop_coord cfg m i)) (removelast r)).
  change ([] ++ map (name_at cfg m) (removelast r))
    with (map (name_at cfg m) (removelast r)).
  rewrite !map_removelast_last by assumption.
  rewrite combine_texts. reflexivity.
Qed.

Lemma plot_vehicles_walks fuel vs :
  forall rs,
    Forall2 (fun v r => walk m a fuel (Start m v) = Some r /\
                        (last r 0%nat < Size m + vehicles m)%nat) vs rs ->
    plot_vehicles cfg m (Some a) fuel vs =
    Some (flat_map (fun vr => route_plot_calls cfg m (fst vr) (snd vr))
                   (combine vs rs), true).
Proof.
  induction vs as [| v vs IH]; intros rs H; inversion H as [| ? r ? rs' [Hw Hl] Hrest];
    subst; [reflexivity |].
  cbn [plot_vehicles]. rewrite (plot_vehicle_walk _ _ Hw Hl).
  rewrite (IH _ Hrest). reflexivity.
Qed.

Hypothesis Hf : feasible m a.

Lemma feasible_walks fuel :
  (Size m <= fuel)%nat ->
  exists rs,
    walks m a fuel = Some rs /\
    Forall2 (fun v r => walk m a fuel (Start m v) = Some r /\
                        (last r 0%nat < Size m + vehicles m)%nat)
            (seq 0 (vehicles m)) rs.
Proof.
  intros Hfuel.
  destruct (feasible_inv Hf) as (Hroute & _).
  destruct (built_index_nodes cfg Hm) as (Hse & _).
  assert (G : forall vs, (forall v, In v vs -> (v < vehicles m)%nat) ->
            exists rs, walks_of m a fuel vs = Some rs /\
              Forall2 (fun v r => walk m a fuel (Start m v) = Some r /\
                                  (last r 0%nat < Size m + vehicles m)%nat)
                      vs rs).
  { induction vs as [| v vs IH]; intros Hvs; simpl.
    - exists []. split; [reflexivity | constructor].
    - destruct IH as (rs & Hrs & Hall); [intros; apply Hvs; now right |].
      assert (Hv : (v < vehicles m)%nat) by (apply Hvs; now left).
      destruct (Hroute v Hv) as (r & Hr & Hlast).
      unfold route in Hr.
      pose proof (@walk_mono m a _ fuel _ _ Hr Hfuel) as Hw.
      rewrite Hw, Hrs. exists (r :: rs). split; [reflexivity |].
      constructor; [| assumption]. split; [assumption |].
      rewrite Hlast. destruct (Hse v Hv) as (_ & _ & -> & _). lia. }
  apply G. intros v Hv. apply in_seq in Hv. lia.
Qed.

Lemma plot_block_solution fuel :
  (Size m <= fuel)%nat ->
  exists rs,
    walks m a fuel = Some rs /\
    plot_block cfg m (Some a) fuel true =
    Some (plt_figure ::
          flat_map (fun vr => route_plot_calls cfg m (fst vr) (snd vr))
                   (combine (seq 0 (vehicles m)) rs) ++
          plot_decorations).
Proof.
  intros Hfuel. destruct (feasible_walks Hfuel) as (rs & Hrs & Hall).
  exists rs. split; [assumption |].
  unfold plot_block. now rewrite (@plot_vehicles_walks fuel _ _ Hall).
Qed.

End PlotSolution.

(** X10.  For an assignment that satisfies the model the plotting block never
    raises: it creates the figure, draws for every truck, in order, the line
    through the coordinates of the stops of the very walk that
    [print_solution] reports, with one label per stop, and ends with the
    title, the axes, the legend and [plt.show]. *)
Theorem plot_draws_reported_routes :
  forall (cfg : Config) (m : RoutingModel) (a : Assignment) (fuel : nat),
    build_model cfg = Ok m ->
    feasible m a ->
    (Size m <= fuel)%nat ->
    exists rs,
      walks m a fuel = Some rs /\
      print_solution cfg m a fuel =
        Some (truck_lines cfg m (seq 0 (vehicles m)) rs ++
              [TextLine "";
               TotalLine (total_distance_of m (seq 0 (vehicles m)) rs)]) /\
      plot_block cfg m (Some a) fuel true =
        Some (plt_figure ::
              flat_map (fun vr => route_plot_calls cfg m (fst vr) (snd vr))
                       (combine (seq 0 (vehicles m)) rs) ++
              plot_decorations).
Proof.
  intros cfg m a fuel Hm Hf Hfuel.
  destruct (@plot_block_solution cfg m Hm a Hf fuel Hfuel) as (rs & Hrs & Hp).
  exists rs. split; [assumption |]. split; [| assumption].
  unfold print_solution. rewrite print_routes_walks.
  unfold walks in Hrs. now rewrite Hrs.
Qed.

Lemma plot_draws_reported_routes_witness :
  build_model scenario = Ok (model_of scenario) /\
  feasible (model_of scenario) balanced_assignment /\
  (Size (model_of scenario) <= 16)%nat /\
  exists rs,
    walks (model_of scenario) balanced_assignment 16 = Some rs /\
    plot_block scenario (model_of scenario) (Some balanced_assignment) 16 true =
      Some (plt_figure ::
            flat_map (fun vr => route_plot_calls scenario (model_of scenario)
                                                 (fst vr) (snd vr))
                     (combine (seq 0 (vehicles (model_of scenario))) rs) ++
            plot_decorations).
Proof.
  assert (Hs : (Size (model_of scenario) <= 16)%nat) by (vm_compute; lia).
  split; [exact scenario_model_Ok |].
  split; [exact balanced_assignment_feasible |].
  split; [exact Hs |].
  destruct (@plot_draws_reported_routes
              scenario _ _ 16%nat
              scenario_model_Ok balanced_assignment_feasible Hs)
    as (rs & Hrs & _ & Hplot).
  exists rs. split; [exact Hrs | exact Hplot].
Defined.

(* ------------------------------------------------------------------------- *)
(** ** The whole run *)
(* ------------------------------------------------------------------------- *)

Lemma enumerate_nth {A} (l : list A) (d : A) :
  enumerate l = map (fun i => (i, nth i l d)) (seq 0 (List.length l)).
Proof.
  unfold enumerate.
  assert (G : forall s,
             combine (seq s (List.length l)) l =
             map (fun i => (i, nth (i - s) l d)) (seq s (List.length l))).
  { induction l as [| x l IH]; intros s; simpl; [reflexivity |].
    rewrite Nat.sub_diag, IH. f_equal.
    apply map_ext_in. intros i Hi. apply in_seq in Hi.
    replace (i - s)%nat with (S (i - S s)) by lia. reflexivity. }
  rewrite G. apply map_ext. intros i. now rewrite Nat.sub_0_r.
Qed.

Lemma report_listing (cfg : Config) :
  map (fun p : nat * string =>
         NodeLine (fst p) (snd p)
                  (match dict_get (locations cfg) (snd p) with
                   | Some c => c
                   | None => (0, 0)
                   end))
      (enumerate (node_names cfg)) =
  node_listing cfg.
Proof.
  rewrite (enumerate_nth _ ""), map_map, <- n_node_names.
  unfold node_listing. apply map_ext_in. intros i Hi. apply in_seq in Hi.
  simpl. rewrite locations_nth by lia. reflexivity.
Qed.

(** X11.  Once the model is declared, a run with a search that only returns
    assignments satisfying the model always completes.  Without a solution
    it prints the diagnostic alone; the plot is empty without matplotlib,
    is the bare figure when there is a vehicle, and is an empty figure that
    is shown when there is none.  With a solution it prints the banner, the
    table of the nodes (index, name and coordinates of every node, in
    order), the routes and the total, and, with matplotlib, draws the same
    routes. *)
Theorem run_completes_with_sound_search :
  forall (cfg : Config) (m : RoutingModel)
         (solve : RoutingModel -> option Assignment)
         (fuel : nat) (matplotlib : bool),
    build_model cfg = Ok m ->
    sound solve ->
    (Size m <= fuel)%nat ->
    match solve m with
    | None =>
        program cfg fuel matplotlib solve =
        Completed [no_solution_line]
                  (if matplotlib
                   then match vehicles m with
                        | O => plt_figure :: plot_decorations
                        | S _ => [plt_figure]
                        end
                   else [])
    | Some a =>
        exists rs,
          walks m a fuel = Some rs /\
          program cfg fuel matplotlib solve =
          Completed
            ([TextLine "Balanced solution found!"; TextLine "";
              TextLine "Nodes (index -> name)        Coordinates"]
             ++ node_listing cfg
             ++ [TextLine ""; TextLine "--- Routes ---"]
             ++ truck_lines cfg m (seq 0 (vehicles m)) rs
             ++ [TextLine "";
                 TotalLine (total_distance_of m (seq 0 (vehicles m)) rs)])
            (if matplotlib
             then plt_figure ::
                  flat_map (fun vr => route_plot_calls cfg m (fst vr) (snd vr))
                           (combine (seq 0 (vehicles m)) rs) ++
                  plot_decorations
             else [])
    end.
Proof.
  intros cfg m solve fuel matplotlib Hm Hsound Hfuel.
  destruct (solve m) as [a |] eqn:Hs.
  - pose proof (Hsound m a Hs) as Hf.
    destruct (@plot_block_solution cfg m Hm a Hf fuel Hfuel) as (rs & Hrs & Hp).
    exists rs. split; [assumption |].
    unfold program. rewrite Hm, Hs. unfold report, print_solution.
    rewrite print_routes_walks. unfold walks in Hrs. rewrite Hrs.
    rewrite report_listing.
    destruct matplotlib.
    + rewrite Hp. reflexivity.
    + unfold plot_block. reflexivity.
  - destruct (@program_no_solution cfg m Hm fuel matplotlib solve Hs)
      as (plot & Hp & Hprog).
    rewrite Hprog. f_equal.
    destruct matplotlib.
    + destruct (vehicles m) as [| k] eqn:Hk.
      * unfold plot_block in Hp. rewrite Hk in Hp. simpl in Hp.
        now injection Hp as <-.
      * rewrite (@plot_block_no_solution_entered cfg m Hm fuel) in Hp
          by lia.
        now injection Hp as <-.
    + unfold plot_block in Hp. now injection Hp as <-.
Qed.

Lemma run_completes_with_sound_search_witness :
  build_model scenario = Ok (model_of scenario) /\
  sound (checked_solver balanced_routes) /\
  (Size (model_of scenario) <= 16)%nat /\
  exists stdout plot,
    program scenario 16 true (checked_solver balanced_routes) =
    Completed stdout plot.
Proof.
  assert (Hs : (Size (model_of scenario) <= 16)%nat) by (vm_compute; lia).
  split; [exact scenario_model_Ok |].
  split; [apply checked_solver_sound |].
  split; [exact Hs |].
  pose proof (@run_completes_with_sound_search
                scenario _ (checked_solver balanced_routes) 16%nat true
                scenario_model_Ok (checked_solver_sound balanced_routes) Hs)
    as Hrun.
  destruct (checked_solver balanced_routes (model_of scenario)) as [a |].
  - destruct Hrun as (rs & _ & Hprog). rewrite Hprog. eauto.
  - rewrite Hrun. eauto.
Defined.

(* ------------------------------------------------------------------------- *)
(** ** Totals and bases that are not named as depots *)
(* ------------------------------------------------------------------------- *)

Section Totals.

Variable cfg : Config.
Variable m : RoutingModel.
Hypothesis Hm : build_model cfg = Ok m.
Variable a : Assignment.
Hypothesis Hf : feasible m a.

Lemma route_distance_le v r :
  (v < vehicles m)%nat -> route m a v = Some r ->
  0 <= route_distance m v r <= 120.
Proof.
  intros Hv Hr.
  set (d := {| dim_name := "Distance"; dim_evaluator := 0; dim_slack_max := 0;
               dim_capacities := repeat 120 (vehicles m);
               dim_fix_start_cumul_to_zero := true |}).
  assert (Hin : In d (dimensions m))
    by (rewrite (built_dimensions cfg Hm); right; now left).
  destruct (end_cumul d Hf Hin Hv eq_refl eq_refl Hr) as [Hc Hb].
  destruct (built_evaluators cfg Hm) as (_ & _ & _ & Hcost).
  assert (Hd : cumul a d (End m v) = route_distance m v r).
  { rewrite Hc. unfold route_distance. apply path_cost_ext.
    intros i j. now rewrite Hcost. }
  simpl dim_capacities in Hb. rewrite nth_repeat_lt in Hb by assumption.
  now rewrite Hd in Hb.
Qed.

Lemma total_distance_le vs :
  forall rs,
    (forall v, In v vs -> (v < vehicles m)%nat) ->
    Forall2 (fun v r => route m a v = Some r /\ last r 0%nat = End m v) vs rs ->
    0 <= total_distance_of m vs rs <= 120 * Z.of_nat (List.length vs).
Proof.
  induction vs as [| v vs IH]; intros rs Hvs H;
    inversion H as [| ? r ? rs' [Hr _] Hrest]; subst.
  - unfold total_distance_of. simpl. lia.
  - unfold total_distance_of in *. cbn [combine map fold_right fst snd].
    assert (Hd : 0 <= route_distance m v r <= 120)
      by (apply route_distance_le; [apply Hvs; now left | assumption]).
    assert (Hrec : 0 <= fold_right Z.add 0
                          (map (fun vr => route_distance m (fst vr) (snd vr))
                               (combine vs rs'))
                   <= 120 * Z.of_nat (List.length vs))
      by (apply IH; [intros; apply Hvs; now right | assumption]).
    change (List.length (v :: vs)) with (S (List.length vs)). lia.
Qed.

(** The start of a route counts against the capacity when the base is not
    named as a depot. *)
Lemma unnamed_base_counted v r :
  (v < vehicles m)%nat -> route m a v = Some r ->
  named_depot cfg (depot_of cfg v) = false ->
  counted_stops cfg m r =
  Start m v ::
  filter (fun i => negb (named_depot cfg (IndexToNode (manager m) i)))
         (intermediate_stops r).
Proof.
  intros Hv Hr Hname.
  destruct (@route_three_stops cfg m Hm a Hf v Hv) as (r' & Hr' & _ & Hlen).
  rewrite Hr in Hr'. injection Hr' as <-.
  destruct (walk_hd _ _ _ _ Hr) as [t ->].
  destruct t as [| y t]; [simpl in Hlen; lia |].
  unfold counted_stops, intermediate_stops.
  rewrite removelast_cons2. cbn [filter tl].
  destruct (built_index_nodes cfg Hm) as (Hse & _).
  destruct (Hse v Hv) as (-> & _). now rewrite Hname.
Qed.

End Totals.

(** X12.  For an assignment that satisfies the model the total that
    [print_solution] prints lies between 0 and 120 times the number of
    vehicles. *)
Theorem total_distance_bounded :
  forall (cfg : Config) (m : RoutingModel) (a : Assignment) (fuel : nat),
    build_model cfg = Ok m ->
    feasible m a ->
    (Size m <= fuel)%nat ->
    exists rs,
      walks m a fuel = Some rs /\
      print_solution cfg m a fuel =
        Some (truck_lines cfg m (seq 0 (vehicles m)) rs ++
              [TextLine "";
               TotalLine (total_distance_of m (seq 0 (vehicles m)) rs)]) /\
      0 <= total_distance_of m (seq 0 (vehicles m)) rs
        <= 120 * Z.of_nat (vehicles m).
Proof.
  intros cfg m a fuel Hm Hf Hfuel.
  destruct (@walks_of_feasible m a fuel (seq 0 (vehicles m)) Hf Hfuel)
    as (rs & Hrs & Hall).
  { intros v Hv. apply in_seq in Hv. lia. }
  exists rs. split; [exact Hrs |]. split.
  - unfold print_solution. rewrite print_routes_walks. now rewrite Hrs.
  - rewrite <- (length_seq (vehicles m) 0) at 3.
    apply (@total_distance_le cfg m Hm a Hf); [| assumption].
    intros v Hv. apply in_seq in Hv. lia.
Qed.

Lemma total_distance_bounded_witness :
  build_model scenario = Ok (model_of scenario) /\
  feasible (model_of scenario) balanced_assignment /\
  (Size (model_of scenario) <= 16)%nat /\
  exists rs,
    walks (model_of scenario) balanced_assignment 16 = Some rs /\
    0 <= total_distance_of (model_of scenario)
                           (seq 0 (vehicles (model_of scenario))) rs
      <= 120 * Z.of_nat (vehicles (model_of scenario)).
Proof.
  assert (Hs : (Size (model_of scenario) <= 16)%nat) by (vm_compute; lia).
  split; [exact scenario_model_Ok |].
  split; [exact balanced_assignment_feasible |].
  split; [exact Hs |].
  destruct (@total_distance_bounded
              scenario _ _ 16%nat
              scenario_model_Ok balanced_assignment_feasible Hs)
    as (rs & Hrs & _ & Hb).
  exists rs. split; [exact Hrs | exact Hb].
Defined.

(** X13.  A vehicle whose base has a name that does not start with "Depot"
    pays one unit of capacity for the base itself: in every assignment that
    satisfies the model the start of its route is among the counted stops,
    and at most three of the stops between start and end are customers by
    name. *)
Theorem unnamed_base_takes_a_slot :
  forall (cfg : Config) (m : RoutingModel) (a : Assignment) (v : nat),
    build_model cfg = Ok m ->
    feasible m a ->
    (v < vehicles m)%nat ->
    named_depot cfg (depot_of cfg v) = false ->
    exists r,
      route m a v = Some r /\
      In (Start m v) (counted_stops cfg m r) /\
      (List.length
         (filter (fun i => negb (named_depot cfg (IndexToNode (manager m) i)))
                 (intermediate_stops r)) <= 3)%nat.
Proof.
  intros cfg m a v Hm Hf Hv Hname.
  destruct (@route_three_stops cfg m Hm a Hf v Hv) as (r & Hr & _).
  exists r. split; [exact Hr |].
  pose proof (@counted_stops_le cfg m Hm a Hf v r Hv Hr) as Hle.
  rewrite (@unnamed_base_counted cfg m Hm a Hf v r Hv Hr Hname) in *.
  split; [now left |]. simpl in Hle. lia.
Qed.

Lemma unnamed_base_takes_a_slot_witness :
  build_model hub_scenario = Ok (model_of hub_scenario) /\
  feasible (model_of hub_scenario)
           (routes_assignment (model_of hub_scenario) hub_routes) /\
  (0 < vehicles (model_of hub_scenario))%nat /\
  named_depot hub_scenario (depot_of hub_scenario 0) = false /\
  exists r,
    route (model_of hub_scenario)
          (routes_assignment (model_of hub_scenario) hub_routes) 0 = Some r /\
    In (Start (model_of hub_scenario) 0)
       (counted_stops hub_scenario (model_of hub_scenario) r).
Proof.
  assert (Hm : build_model hub_scenario = Ok (model_of hub_scenario)).
  { apply model_of_Ok with (se := ([0%nat], [0%nat])). vm_compute. reflexivity. }
  assert (Hf : feasible (model_of hub_scenario)
                        (routes_assignment (model_of hub_scenario) hub_routes))
    by (vm_compute; reflexivity).
  assert (Hv : (0 < vehicles (model_of hub_scenario))%nat) by (vm_compute; lia).
  assert (Hn : named_depot hub_scenario (depot_of hub_scenario 0) = false)
    by (vm_compute; reflexivity).
  split; [exact Hm |]. split; [exact Hf |]. split; [exact Hv |].
  split; [exact Hn |].
  destruct (@unnamed_base_takes_a_slot hub_scenario _ _ 0%nat Hm Hf Hv Hn)
    as (r & Hr & Hin & _).
  exists r. split; [exact Hr | exact Hin].
Defined.
